(** * physical-ai-book-backend: the chunker, the RAG service and the indexing driver

    A shallow embedding of [index_book.py] and [app/services/rag_service.py].

    - Python [str] values are sequences of Unicode code points: [list N].
    - Python [int] values are unbounded: [Z].
    - Python [float] values are IEEE binary64: Rocq's primitive [float].
    - The collaborators (embedding model, Qdrant, OpenAI, the file system) are
      operations on an abstract world; every call is recorded in a trace, and
      each may raise. *)

From Stdlib Require Import String Ascii.
From Stdlib Require Import List ZArith NArith Lia Bool DecimalString.
From Stdlib Require Import Floats.PrimFloat.
Import ListNotations.

Local Open Scope Z_scope.

(** ** Python strings *)

Module PyStr.

(** A Python [str]: its code points, in order. *)
Abbreviation str := (list N) (only parsing).

(** An ASCII literal of the source, as code points. *)
Definition lit (s : string) : str := map N_of_ascii (list_ascii_of_string s).

(** [str(n)] for an [int]: its decimal digits. *)
Definition str_of_int (n : Z) : str := lit (NilZero.string_of_int (Z.to_int n)).

(** [len(s)], for a string or a list. *)
Definition len {A} (s : list A) : Z := Z.of_nat (length s).

(** Truthiness of a [str]: the empty string is falsy. *)
Definition truthy {A} (s : list A) : bool :=
  match s with [] => false | _ :: _ => true end.

Definition in_range (lo hi c : N) : bool := (N.leb lo c && N.leb c hi)%bool.

(** [str.isspace] on one code point (CPython's [_PyUnicode_IsWhitespace]);
    this is the set [str.strip()] removes. *)
Definition isspace (c : N) : bool :=
  (in_range 9 13 c || in_range 28 31 c || N.eqb c 32 || N.eqb c 133
   || N.eqb c 160 || N.eqb c 5760 || in_range 8192 8202 c
   || N.eqb c 8232 || N.eqb c 8233 || N.eqb c 8239 || N.eqb c 8287
   || N.eqb c 12288)%bool.

Definition nonspace (c : N) : bool := negb (isspace c).

Fixpoint dropwhile {A} (f : A -> bool) (s : list A) : list A :=
  match s with
  | [] => []
  | c :: s' => if f c then dropwhile f s' else s
  end.

Definition lstrip (s : str) : str := dropwhile isspace s.
Definition rstrip (s : str) : str := rev (dropwhile isspace (rev s)).

(** [s.strip()] *)
Definition strip (s : str) : str := rstrip (lstrip s).

(** The paragraph separator, two line feeds. *)
Definition nn : str := [10%N; 10%N].

(** [sep.join(parts)] *)
Fixpoint join (sep : str) (parts : list str) : str :=
  match parts with
  | [] => []
  | [p] => p
  | p :: ps => p ++ sep ++ join sep ps
  end.

Definition cons_head (c : N) (ps : list str) : list str :=
  match ps with
  | [] => [[c]]
  | p :: ps' => (c :: p) :: ps'
  end.

(** [s.split('\n\n')]: cut at every occurrence of the separator, scanning
    from the left without overlap; the result always has one piece more than
    there are cuts, so it is never empty. *)
Fixpoint split_nn (s : str) : list str :=
  match s with
  | [] => [[]]
  | c :: s' =>
      match s' with
      | d :: s'' =>
          if (N.eqb c 10 && N.eqb d 10)%bool then [] :: split_nn s''
          else cons_head c (split_nn s')
      | [] => cons_head c (split_nn s')
      end
  end.

End PyStr.

Import PyStr.

(** ** index_book.py: split_content *)

Module Chunker.

(** The body of [for para in paragraphs], threading the two locals
    [chunks] and [current_chunk]. *)
Fixpoint split_loop (max_length : Z) (paragraphs : list str)
         (chunks : list str) (current_chunk : str) : list str * str :=
  match paragraphs with
  | [] => (chunks, current_chunk)
  | para :: rest =>
      if len current_chunk + len para <? max_length then
        split_loop max_length rest chunks (current_chunk ++ (para ++ nn))
      else
        split_loop max_length rest
          (if truthy current_chunk then chunks ++ [strip current_chunk]
           else chunks)
          (para ++ nn)
  end.

(** [split_content(text, max_length)] *)
Definition split_content (text : str) (max_length : Z) : list str :=
  let paragraphs := split_nn text in
  let '(chunks, current_chunk) := split_loop max_length paragraphs [] [] in
  let chunks :=
    if truthy current_chunk then chunks ++ [strip current_chunk] else chunks in
  if truthy chunks then chunks else [text].

(** Whether the last statement would take its [[text]] fallback. *)
Definition fallback_taken (text : str) (max_length : Z) : bool :=
  let '(chunks, current_chunk) :=
    split_loop max_length (split_nn text) [] [] in
  negb (truthy
          (if truthy current_chunk then chunks ++ [strip current_chunk]
           else chunks)).

(** The buffer a group of paragraphs leaves in [current_chunk]. *)
Definition flat (g : list str) : str := concat (map (fun p => p ++ nn) g).

(** What the loop guarantees of the paragraphs behind one buffer: a lone
    paragraph, or several that passed the length test together. *)
Definition group_ok (max_length : Z) (g : list str) : Prop :=
  (exists para, g = [para]) \/ len (flat g) < max_length + 2.

End Chunker.

Import Chunker.

(** ** Effects: collaborators, exceptions and the trace of calls *)

Module Effects.

Inductive Exn :=
| KeyError (key : str)        (* a missing key of a payload dict *)
| IndexError                  (* [choices[0]] on an empty list *)
| ServiceError (msg : str).   (* raised inside a collaborator *)

Definition Vector := list float.

(** A [ScoredPoint] returned by Qdrant: its payload dict and its score. *)
Record Hit := { payload : list (str * str); hit_score : float }.

(** What a call to a collaborator gives back. *)
Definition Outcome (A : Type) : Type := Exn + A.

(** Every call that leaves the program, with what it returned. *)
Inductive Event :=
| EvLoadModel (name : str) (r : Outcome unit)
| EvHttpClient (timeout : float) (r : Outcome unit)
| EvOpenAIClient (r : Outcome unit)
| EvQdrantClient (r : Outcome unit)
| EvGetCollections (r : Outcome (list str))
| EvCreateCollection (name : str) (size : Z) (r : Outcome unit)
| EvEncode (text : str) (r : Outcome Vector)
| EvUpsert (collection : str) (id : Z) (vector : Vector)
           (text source : str) (r : Outcome unit)
| EvSearch (collection : str) (query_vector : Vector) (limit : Z)
           (r : Outcome (list Hit))
| EvChat (model system_prompt user_prompt : str) (temperature : float)
         (max_tokens : Z) (r : Outcome (list str))
| EvExists (path : str) (r : bool)
| EvRglob (path : str) (r : Outcome (list str))
| EvRead (path : str) (r : Outcome str)
| EvLogError (msg : str)
| EvLogInfo (msg : str)
| EvPrint (msg : str).

(** The collaborators, as operations on a world [W]. The message contents of
    the [choices] of a chat completion stand for the completion itself. The
    three client constructors read their key or url from the settings, which
    are part of the world. *)
Record Services (W : Type) := {
  load_model : str -> W -> W * Outcome unit;
  new_http_client : float -> W -> W * Outcome unit;
  new_openai_client : W -> W * Outcome unit;
  new_qdrant_client : W -> W * Outcome unit;
  get_collections : W -> W * Outcome (list str);
  create_collection : str -> Z -> W -> W * Outcome unit;
  encode : str -> W -> W * Outcome Vector;
  upsert : str -> Z -> Vector -> str -> str -> W -> W * Outcome unit;
  qsearch : str -> Vector -> Z -> W -> W * Outcome (list Hit);
  chat_create : str -> str -> str -> float -> Z -> W -> W * Outcome (list str);
  path_exists : str -> W -> W * bool;
  rglob_md : str -> W -> W * Outcome (list str);
  read_file : str -> W -> W * Outcome str
}.

Arguments load_model {W}.
Arguments new_http_client {W}.
Arguments new_openai_client {W}.
Arguments new_qdrant_client {W}.
Arguments get_collections {W}.
Arguments create_collection {W}.
Arguments encode {W}.
Arguments upsert {W}.
Arguments qsearch {W}.
Arguments chat_create {W}.
Arguments path_exists {W}.
Arguments rglob_md {W}.
Arguments read_file {W}.

(** A computation over a state [S]: the calls it made, the state it left
    and either the exception it raised or its value. The state survives a
    raised exception, as the locals and the world of a Python program do. *)
Definition M (S A : Type) : Type := S -> list Event * S * Outcome A.

Definition ret {S A} (a : A) : M S A := fun s => ([], s, inr a).

Definition raise {S A} (e : Exn) : M S A := fun s => ([], s, inl e).

Definition bind {S A B} (m : M S A) (k : A -> M S B) : M S B :=
  fun s =>
    match m s with
    | (t1, s1, inl e) => (t1, s1, inl e)
    | (t1, s1, inr a) =>
        let '(t2, s2, r) := k a s1 in (t1 ++ t2, s2, r)
    end.

(** [try: m  except Exception as e: h e] *)
Definition try_except {S A} (m : M S A) (h : Exn -> M S A) : M S A :=
  fun s =>
    match m s with
    | (t1, s1, inr a) => (t1, s1, inr a)
    | (t1, s1, inl e) =>
        let '(t2, s2, r) := h e s1 in (t1 ++ t2, s2, r)
    end.

(** A call to a collaborator: run it, record it, raise what it raised. *)
Definition call {W A} (op : W -> W * Outcome A) (ev : Outcome A -> Event)
  : M W A :=
  fun w => let '(w', r) := op w in ([ev r], w', r).

Definition emit {S} (ev : Event) : M S unit := fun s => ([ev], s, inr tt).

Definition trace_of {S A} (x : list Event * S * Outcome A) : list Event :=
  fst (fst x).
Definition state_of {S A} (x : list Event * S * Outcome A) : S :=
  snd (fst x).
Definition result_of {S A} (x : list Event * S * Outcome A) : Outcome A :=
  snd x.

End Effects.

Import Effects.

Declare Scope py_scope.
Delimit Scope py_scope with py.
Notation "x <- m ;; k" := (bind m (fun x => k))
  (at level 61, m at next level, right associativity) : py_scope.
Notation "m ;; k" := (bind m (fun _ => k))
  (at level 61, right associativity) : py_scope.
Local Open Scope py_scope.

(** ** app/services/rag_service.py: RAGService *)

Module RAG.

(** An entry of [relevant_docs]: the dict with keys text, source, score. *)
Record Doc := { text : str; source : str; score : float }.

(** The dict [generate_answer] returns. *)
Record AnswerResult :=
  { answer : str; sources : list str; confidence : float }.

Definition str_eqb (a b : str) : bool :=
  if list_eq_dec N.eq_dec a b then true else false.

(** [str(e)] for an exception. *)
Definition str_of_exn (e : Exn) : str :=
  match e with
  | KeyError key => lit "'" ++ key ++ lit "'"
  | IndexError => lit "list index out of range"
  | ServiceError msg => msg
  end.

(** [d[key]] on a payload dict. *)
Fixpoint getitem (d : list (str * str)) (key : str) : Outcome str :=
  match d with
  | [] => inl (KeyError key)
  | (k, v) :: d' => if str_eqb k key then inr v else getitem d' key
  end.

(** The list comprehension over [results] in [search]. *)
Fixpoint docs_of_hits (results : list Hit) : Outcome (list Doc) :=
  match results with
  | [] => inr []
  | hit :: rest =>
      match getitem (payload hit) (lit "text") with
      | inl e => inl e
      | inr t =>
          match getitem (payload hit) (lit "source") with
          | inl e => inl e
          | inr s =>
              match docs_of_hits rest with
              | inl e => inl e
              | inr ds =>
                  inr ({| text := t; source := s; score := hit_score hit |}
                       :: ds)
              end
          end
      end
  end.

Definition collection_name : str := lit "physical_ai_textbook".
Definition embedding_model_name : str := lit "all-MiniLM-L6-v2".

Definition not_found_answer : str :=
  lit "I couldn't find relevant information in the textbook to answer your question.".

Definition system_prompt : str :=
  lit "You are a helpful assistant for a Physical AI & Humanoid Robotics textbook. "
  ++ [10%N]
  ++ lit "Answer questions based on the provided context from the textbook. "
  ++ [10%N]
  ++ lit "If the answer is not in the context, say so clearly."
  ++ [10%N]
  ++ lit "Be concise and technical but easy to understand.".

(** [context_text]: the retrieved documents, in rank order. *)
Definition context_text (relevant_docs : list Doc) : str :=
  join nn
    (map (fun doc => lit "Source: " ++ source doc ++ [10%N] ++ text doc)
         relevant_docs).

Definition user_prompt (relevant_docs : list Doc) (question : str) : str :=
  lit "Context from textbook:" ++ [10%N]
  ++ context_text relevant_docs ++ nn
  ++ lit "Question: " ++ question ++ nn
  ++ lit "Please provide a clear and accurate answer based on the context above.".

(** The temperature 0.7, as the binary64 value Python reads it as. *)
Definition temperature : float := 0x1.6666666666666p-1%float.

Section Service.

Context {W : Type} (sv : Services W).

(** [_ensure_collection] *)
Definition _ensure_collection : M W unit :=
  try_except
    (collection_names <- call (get_collections sv) EvGetCollections ;;
     if existsb (str_eqb collection_name) collection_names then ret tt
     else
       call (create_collection sv collection_name 384)
            (EvCreateCollection collection_name 384) ;;
       emit (EvLogInfo (lit "Created collection: " ++ collection_name)))
    (fun e =>
       emit (EvLogError (lit "Error ensuring collection: " ++ str_of_exn e))).

(** [RAGService.__init__]: the model is loaded, the three clients are
    constructed, and the collection is ensured; only the last step has a
    handler. *)
Definition init : M W unit :=
  emit (EvPrint
          (lit "Loading embedding model... (first time takes a minute)")) ;;
  call (load_model sv embedding_model_name)
       (EvLoadModel embedding_model_name) ;;
  emit (EvPrint (lit "Embedding model loaded!")) ;;
  call (new_http_client sv 30%float) (EvHttpClient 30%float) ;;
  call (new_openai_client sv) EvOpenAIClient ;;
  call (new_qdrant_client sv) EvQdrantClient ;;
  _ensure_collection.

(** [embed_text] *)
Definition embed_text (text : str) : M W Vector :=
  try_except
    (call (encode sv text) (EvEncode text))
    (fun e =>
       emit (EvLogError (lit "Error embedding text: " ++ str_of_exn e)) ;;
       raise e).

(** [add_document] *)
Definition add_document (text source : str) (doc_id : Z) : M W unit :=
  try_except
    (embedding <- embed_text text ;;
     call (upsert sv collection_name doc_id embedding text source)
          (EvUpsert collection_name doc_id embedding text source) ;;
     emit (EvLogInfo (lit "Added document: " ++ source)))
    (fun e =>
       emit (EvLogError (lit "Error adding document: " ++ str_of_exn e)) ;;
       raise e).

(** [search] *)
Definition search (query : str) (limit : Z) : M W (list Doc) :=
  try_except
    (query_vector <- embed_text query ;;
     results <- call (qsearch sv collection_name query_vector limit)
                     (EvSearch collection_name query_vector limit) ;;
     fun w => ([], w, docs_of_hits results))
    (fun e =>
       emit (EvLogError (lit "Error searching: " ++ str_of_exn e)) ;;
       ret []).

(** The first statement of [generate_answer]: the explicit context when
    it is truthy (neither [None] nor empty), else a search. *)
Definition relevant_docs (question : str) (context : option str)
  : M W (list Doc) :=
  match context with
  | Some (c :: ctx) =>
      ret [{| text := c :: ctx; source := lit "Selected Text";
              score := 1%float |}]
  | _ => search question 3
  end.

(** [generate_answer] *)
Definition generate_answer (question : str) (context : option str)
  : M W AnswerResult :=
  try_except
    (relevant_docs <- relevant_docs question context ;;
     if negb (truthy relevant_docs) then
       ret {| answer := not_found_answer; sources := [];
              confidence := 0%float |}
     else
       let user_prompt := user_prompt relevant_docs question in
       choices <- call (chat_create sv (lit "gpt-4o-mini") system_prompt
                                    user_prompt temperature 500)
                       (EvChat (lit "gpt-4o-mini") system_prompt
                               user_prompt temperature 500) ;;
       match choices with
       | [] => raise IndexError
       | content :: _ =>
           ret {| answer := content;
                  sources := map source relevant_docs;
                  confidence :=
                    match relevant_docs with
                    | doc :: _ => score doc
                    | [] => 0%float
                    end |}
       end)
    (fun e =>
       emit (EvLogError (lit "Error generating answer: " ++ str_of_exn e)) ;;
       raise e).

End Service.

(** What [generate_answer] returns when nothing was retrieved. *)
Definition not_found_result : AnswerResult :=
  {| answer := not_found_answer; sources := []; confidence := 0%float |}.

(** The one call [generate_answer] makes to the generative model for the
    retrieved documents, and its entry in the trace. *)
Definition ask {W : Type} (sv : Services W) (docs : list Doc) (question : str)
  : W -> W * Outcome (list str) :=
  chat_create sv (lit "gpt-4o-mini") system_prompt (user_prompt docs question)
              temperature 500.

Definition asked (docs : list Doc) (question : str) (r : Outcome (list str))
  : Event :=
  EvChat (lit "gpt-4o-mini") system_prompt (user_prompt docs question)
         temperature 500 r.

(** The document an explicit context is wrapped into. *)
Definition selected_text (context : str) : Doc :=
  {| text := context; source := lit "Selected Text"; score := 1%float |}.

End RAG.

Import RAG.

(** ** index_book.py: index_markdown_files *)

Module Indexer.

Definition docs_path : str := lit "../physical-ai-book/docs".

(** A markdown file found under [docs_path] is named by its path relative
    to it: [str(md_file)] puts the folder back in front. *)
Definition full_path (md_file : str) : str := docs_path ++ lit "/" ++ md_file.

(** The world together with the local [doc_id] of the driver. *)
Record Locals (W : Type) := { world : W; doc_id : Z }.
Arguments world {W}.
Arguments doc_id {W}.

(** The line printed when a document fails. *)
Definition error_report (md_file : str) (e : Exn) : str :=
  [10007%N] ++ lit " Error indexing " ++ full_path md_file ++ lit ": "
  ++ str_of_exn e.

(** The line printed at the end of a run. *)
Definition final_report (count : Z) : str :=
  [10%N; 10003%N] ++ lit " Successfully indexed " ++ str_of_int count
  ++ lit " document chunks!".

Section Run.

Context {W : Type} (sv : Services W).

Definition liftW {A} (m : M W A) : M (Locals W) A :=
  fun l =>
    let '(t, w, r) := m (world l) in
    (t, {| world := w; doc_id := doc_id l |}, r).

Definition get_doc_id : M (Locals W) Z := fun l => ([], l, inr (doc_id l)).

Definition set_doc_id (d : Z) : M (Locals W) unit :=
  fun l => ([], {| world := world l; doc_id := d |}, inr tt).

Definition chunk_source (source : str) (n : nat) (i : nat) : str :=
  if (1 <? Z.of_nat n)%Z
  then source ++ lit " (Part " ++ str_of_int (Z.of_nat i + 1) ++ lit ")"
  else source.

(** [for i, chunk in enumerate(chunks)], from index [i] on; [n] is
    [len(chunks)]. *)
Fixpoint index_chunks (source : str) (n i : nat) (chunks : list str)
  : M (Locals W) unit :=
  match chunks with
  | [] => ret tt
  | chunk :: rest =>
      emit (EvPrint (lit "Indexing: " ++ chunk_source source n i)) ;;
      d <- get_doc_id ;;
      liftW (add_document sv chunk (chunk_source source n i) d) ;;
      set_doc_id (d + 1) ;;
      index_chunks source n (S i) rest
  end.

(** The body of [for md_file in md_files]: one [try ... except]. *)
Definition index_file (md_file : str) : M (Locals W) unit :=
  try_except
    (content <- liftW (call (read_file sv (full_path md_file))
                            (EvRead (full_path md_file))) ;;
     if len (strip content) <? 50 then ret tt
     else
       let source := md_file in
       let chunks := split_content content 1000 in
       index_chunks source (length chunks) 0 chunks ;;
       emit (EvPrint ([10003%N] ++ lit " Indexed: " ++ source)))
    (fun e => emit (EvPrint (error_report md_file e))).

Fixpoint index_files (md_files : list str) : M (Locals W) unit :=
  match md_files with
  | [] => ret tt
  | md_file :: rest => index_file md_file ;; index_files rest
  end.

(** [index_markdown_files] *)
Definition index_markdown_files : M W unit :=
  found <- (fun w => let '(w', b) := path_exists sv docs_path w in
                     ([EvExists docs_path b], w', inr b)) ;;
  if negb found then
    emit (EvPrint (lit "Error: Docs folder not found at " ++ docs_path))
  else
    init sv ;;
    md_files <- call (rglob_md sv docs_path) (EvRglob docs_path) ;;
    if negb (truthy md_files) then
      emit (EvPrint (lit "No markdown files found!"))
    else
      emit (EvPrint (lit "Found " ++ str_of_int (len md_files)
                     ++ lit " markdown files")) ;;
      fun w =>
        let '(t, l, r) :=
          (index_files md_files ;;
           d <- get_doc_id ;;
           emit (EvPrint (final_report (d - 1))))
            {| world := w; doc_id := 1 |} in
        (t, world l, r).

End Run.

End Indexer.

Import Indexer.

(** ** Reading a trace *)

Module Trace.

(** A call to the embedding model or to the vector index's search. *)
Definition is_retrieval_call (ev : Event) : bool :=
  match ev with
  | EvEncode _ _ | EvSearch _ _ _ _ => true
  | _ => false
  end.

(** A call to the generative model. *)
Definition is_chat_call (ev : Event) : bool :=
  match ev with
  | EvChat _ _ _ _ _ _ => true
  | _ => false
  end.

(** An upsert that the vector index accepted. *)
Definition is_indexed (ev : Event) : bool :=
  match ev with
  | EvUpsert _ _ _ _ _ (inr _) => true
  | _ => false
  end.

(** How many chunks a run put into the vector index. *)
Definition indexed_count (t : list Event) : Z := len (filter is_indexed t).

(** The files a run opened, in order. *)
Definition files_read (t : list Event) : list str :=
  flat_map (fun ev => match ev with EvRead path _ => [path] | _ => [] end) t.

(** The texts a run sent to the embedding model, in order. *)
Definition texts_embedded (t : list Event) : list str :=
  flat_map (fun ev => match ev with EvEncode text _ => [text] | _ => [] end) t.

End Trace.

Import Trace.

(** ** Scripted collaborators, to run the service on concrete inputs *)

Module Stub.

Record Script := {
  on_encode : str -> Outcome Vector;
  on_search : Outcome (list Hit);
  on_chat : Outcome (list str);
  on_upsert : Z -> Outcome unit;
  files : list (str * Outcome str)
}.

Fixpoint read_script (fs : list (str * Outcome str)) (path : str)
  : Outcome str :=
  match fs with
  | [] => inl (ServiceError (lit "No such file or directory"))
  | (name, r) :: fs' =>
      if str_eqb (full_path name) path then r else read_script fs' path
  end.

(** Collaborators without a state of their own, answering from a script. *)
Definition services (sc : Script) : Services unit := {|
  load_model := fun _ w => (w, inr tt);
  new_http_client := fun _ w => (w, inr tt);
  new_openai_client := fun w => (w, inr tt);
  new_qdrant_client := fun w => (w, inr tt);
  get_collections := fun w => (w, inr [collection_name]);
  create_collection := fun _ _ w => (w, inr tt);
  encode := fun text w => (w, on_encode sc text);
  upsert := fun _ id _ _ _ w => (w, on_upsert sc id);
  qsearch := fun _ _ _ w => (w, on_search sc);
  chat_create := fun _ _ _ _ _ w => (w, on_chat sc);
  path_exists := fun _ w => (w, true);
  rglob_md := fun _ w => (w, inr (map fst (files sc)));
  read_file := fun path w => (w, read_script (files sc) path)
|}.

(** Everything works: one hit in the index, one choice from the model. *)
Definition healthy : Script := {|
  on_encode := fun _ => inr [1%float; 0%float];
  on_search :=
    inr [{| payload := [(lit "text", lit "A humanoid robot has a body.");
                        (lit "source", lit "intro.md")];
            hit_score := 0.75%float |}];
  on_chat := inr [lit "It is a robot shaped like a person."];
  on_upsert := fun _ => inr tt;
  files := []
|}.

Definition embedder_down : Script := {|
  on_encode := fun _ => inl (ServiceError (lit "model not loaded"));
  on_search := on_search healthy;
  on_chat := on_chat healthy;
  on_upsert := on_upsert healthy;
  files := []
|}.

Definition index_down : Script := {|
  on_encode := on_encode healthy;
  on_search := inl (ServiceError (lit "connection refused"));
  on_chat := on_chat healthy;
  on_upsert := on_upsert healthy;
  files := []
|}.

Definition model_down : Script := {|
  on_encode := on_encode healthy;
  on_search := on_search healthy;
  on_chat := inl (ServiceError (lit "rate limit"));
  on_upsert := on_upsert healthy;
  files := []
|}.

(** A document of two chunks, each a paragraph of 600 characters. *)
Definition two_chunk_document : str :=
  repeat 97%N 600 ++ nn ++ repeat 98%N 600.

(** The embedding model refuses any text that starts with the letter a, so
    only the first chunk of [two_chunk_document] fails. *)
Definition first_chunk_fails : Script := {|
  on_encode := fun text =>
    match text with
    | 97%N :: _ => inl (ServiceError (lit "bad input"))
    | _ => inr [1%float]
    end;
  on_search := on_search healthy;
  on_chat := on_chat healthy;
  on_upsert := on_upsert healthy;
  files := [(lit "ch1.md", inr two_chunk_document);
            (lit "ch2.md", inr (repeat 98%N 60))]
|}.

End Stub.

(** ** app/routers/chat.py: the two endpoints *)

Module Router.

(** [ChatRequest] *)
Record ChatRequest := {
  message : str;
  context : option str;
  user_id : option str
}.

(** [ChatResponse] *)
Record ChatResponse := {
  answer : str;
  sources : list str;
  confidence : float
}.

(** [HTTPException(status_code, detail)] *)
Record HTTPException := { status_code : Z; detail : str }.

(** What an endpoint does: it returns its value or raises an
    [HTTPException]. Every other exception is caught inside it. *)
Definition Reply (A : Type) : Type := HTTPException + A.

(** The world together with the module global [rag_service]: whether it
    holds an instance ([true]) or is still [None] ([false]). *)
Record App (W : Type) := { app_world : W; rag_service : bool }.
Arguments app_world {W}.
Arguments rag_service {W}.

Definition empty_message_error : HTTPException :=
  {| status_code := 400; detail := lit "Message cannot be empty" |}.

Definition processing_error : HTTPException :=
  {| status_code := 500;
     detail := lit "An error occurred processing your request" |}.

Section Endpoints.

Context {W : Type} (sv : Services W).

Definition liftA {A} (m : M W A) : M (App W) A :=
  fun a =>
    let '(t, w, r) := m (app_world a) in
    (t, {| app_world := w; rag_service := rag_service a |}, r).

(** [get_rag_service]: the instance is built on first use, and the global
    is only assigned once the constructor has returned. *)
Definition get_rag_service : M (App W) unit :=
  fun a =>
    if rag_service a then ([], a, inr tt)
    else
      match init sv (app_world a) with
      | (t, w, inr _) => (t, {| app_world := w; rag_service := true |}, inr tt)
      | (t, w, inl e) => (t, {| app_world := w; rag_service := false |}, inl e)
      end.

(** [chat] *)
Definition chat (request : ChatRequest) : M (App W) (Reply ChatResponse) :=
  try_except
    (if negb (truthy (strip (message request))) then
       ret (inl empty_message_error)
     else
       get_rag_service ;;
       result <- liftA (generate_answer sv (message request)
                                        (context request)) ;;
       ret (inr {| answer := RAG.answer result;
                   sources := RAG.sources result;
                   confidence := RAG.confidence result |}))
    (fun e =>
       emit (EvLogError (lit "Chat error: " ++ str_of_exn e)) ;;
       ret (inl processing_error)).

(** [index_document]; the dict it returns is a list of its items. *)
Definition index_document (text source : str) (doc_id : Z)
  : M (App W) (Reply (list (str * str))) :=
  try_except
    (get_rag_service ;;
     liftA (add_document sv text source doc_id) ;;
     ret (inr [(lit "status", lit "success");
               (lit "message", lit "Indexed document: " ++ source)]))
    (fun e =>
       emit (EvLogError (lit "Indexing error: " ++ str_of_exn e)) ;;
       ret (inl {| status_code := 500;
                   detail := lit "Error indexing document: "
                             ++ str_of_exn e |})).

End Endpoints.

End Router.

(** ** More readings of a trace, and of the chunker's grouping *)

Module Reading.

(** A call that changes the vector index. *)
Definition is_write_call (ev : Event) : bool :=
  match ev with
  | EvUpsert _ _ _ _ _ _ | EvCreateCollection _ _ _ => true
  | _ => false
  end.

(** A call that reaches the vector index. *)
Definition is_index_call (ev : Event) : bool :=
  match ev with
  | EvGetCollections _ | EvCreateCollection _ _ _
  | EvUpsert _ _ _ _ _ _ | EvSearch _ _ _ _ => true
  | _ => false
  end.

(** A call to any collaborator (printing and logging apart). *)
Definition is_collaborator_call (ev : Event) : bool :=
  match ev with
  | EvLogError _ | EvLogInfo _ | EvPrint _ => false
  | _ => true
  end.

(** The ids of the upserts the vector index accepted, in order. *)
Definition accepted_ids (t : list Event) : list Z :=
  flat_map (fun ev => match ev with
                      | EvUpsert _ id _ _ _ (inr _) => [id]
                      | _ => []
                      end) t.

(** [n] consecutive ids from [d] on. *)
Fixpoint ids_from (d : Z) (n : nat) : list Z :=
  match n with
  | O => []
  | S n' => d :: ids_from (d + 1) n'
  end.

(** The ids accepted along a trace are consecutive from [doc_id l] on, and
    [doc_id l'] is the next free one. *)
Definition numbered {W : Type} (t : list Event) (l l' : Locals W) : Prop :=
  accepted_ids t = ids_from (doc_id l) (length (accepted_ids t))
  /\ doc_id l' = doc_id l + len (accepted_ids t).

(** Every cut between two groups was forced: the buffer of the earlier
    group and the first paragraph of the later one fail the length test. *)
Fixpoint forced_cuts (max_length : Z) (groups : list (list str)) : Prop :=
  match groups with
  | g1 :: rest =>
      match rest with
      | g2 :: _ =>
          max_length <= len (flat g1) + len (hd [] g2)
          /\ forced_cuts max_length rest
      | [] => True
      end
  | [] => True
  end.

(** A hit carries both keys [search] reads from its payload. *)
Definition well_formed (hit : Hit) : Prop :=
  (exists t, getitem (payload hit) (lit "text") = inr t)
  /\ (exists s, getitem (payload hit) (lit "source") = inr s).

(** Collaborators that never raise while documents are added. *)
Definition reliable {W : Type} (sv : Services W) : Prop :=
  (forall text w, exists w' v, encode sv text w = (w', inr v))
  /\ (forall c id v text source w,
         exists w', upsert sv c id v text source w = (w', inr tt)).

End Reading.

Import Reading.

(** ** More scripted collaborators *)

Module Scenario.

(** What can go wrong outside a [Stub.Script]: the docs folder, the loading
    of the embedding model, the construction of the Qdrant client, the
    listing and the creation of collections. *)
Record Setup := {
  folder_found : bool;
  on_load : Outcome unit;
  on_qdrant_client : Outcome unit;
  on_list : Outcome (list str);
  on_create : Outcome unit
}.

Definition services (st : Setup) (sc : Stub.Script) : Services unit := {|
  load_model := fun _ w => (w, on_load st);
  new_http_client := fun _ w => (w, inr tt);
  new_openai_client := fun w => (w, inr tt);
  new_qdrant_client := fun w => (w, on_qdrant_client st);
  get_collections := fun w => (w, on_list st);
  create_collection := fun _ _ w => (w, on_create st);
  encode := fun text w => (w, Stub.on_encode sc text);
  upsert := fun _ id _ _ _ w => (w, Stub.on_upsert sc id);
  qsearch := fun _ _ _ w => (w, Stub.on_search sc);
  chat_create := fun _ _ _ _ _ w => (w, Stub.on_chat sc);
  path_exists := fun _ w => (w, folder_found st);
  rglob_md := fun _ w => (w, inr (map fst (Stub.files sc)));
  read_file := fun path w => (w, Stub.read_script (Stub.files sc) path)
|}.

Definition ready : Setup := {|
  folder_found := true;
  on_load := inr tt;
  on_qdrant_client := inr tt;
  on_list := inr [collection_name];
  on_create := inr tt
|}.

Definition no_folder : Setup := {|
  folder_found := false;
  on_load := inr tt;
  on_qdrant_client := inr tt;
  on_list := inr [collection_name];
  on_create := inr tt
|}.

Definition model_missing : Setup := {|
  folder_found := true;
  on_load := inl (ServiceError (lit "cannot download model"));
  on_qdrant_client := inr tt;
  on_list := inr [collection_name];
  on_create := inr tt
|}.

Definition index_unreachable : Setup := {|
  folder_found := true;
  on_load := inr tt;
  on_qdrant_client := inr tt;
  on_list := inl (ServiceError (lit "connection refused"));
  on_create := inr tt
|}.

Definition bad_qdrant_url : Setup := {|
  folder_found := true;
  on_load := inr tt;
  on_qdrant_client := inl (ServiceError (lit "invalid url"));
  on_list := inr [collection_name];
  on_create := inr tt
|}.

(** The second hit has no source in its payload. *)
Definition malformed_hit : Stub.Script := {|
  Stub.on_encode := Stub.on_encode Stub.healthy;
  Stub.on_search :=
    inr [{| payload := [(lit "text", lit "first"); (lit "source", lit "a.md")];
            hit_score := 0.75%float |};
         {| payload := [(lit "text", lit "second")];
            hit_score := 0.5%float |}];
  Stub.on_chat := Stub.on_chat Stub.healthy;
  Stub.on_upsert := Stub.on_upsert Stub.healthy;
  Stub.files := []
|}.

(** Two hits from the same document. *)
Definition two_hits : Stub.Script := {|
  Stub.on_encode := Stub.on_encode Stub.healthy;
  Stub.on_search :=
    inr [{| payload := [(lit "text", lit "first"); (lit "source", lit "a.md")];
            hit_score := 0.75%float |};
         {| payload := [(lit "source", lit "a.md"); (lit "text", lit "second")];
            hit_score := 0.5%float |}];
  Stub.on_chat := Stub.on_chat Stub.healthy;
  Stub.on_upsert := Stub.on_upsert Stub.healthy;
  Stub.files := []
|}.

(** The generative model answers with no choice at all. *)
Definition no_choice : Stub.Script := {|
  Stub.on_encode := Stub.on_encode Stub.healthy;
  Stub.on_search := Stub.on_search Stub.healthy;
  Stub.on_chat := inr [];
  Stub.on_upsert := Stub.on_upsert Stub.healthy;
  Stub.files := []
|}.

(** The vector index refuses every upsert. *)
Definition upsert_refused : Stub.Script := {|
  Stub.on_encode := Stub.on_encode Stub.healthy;
  Stub.on_search := Stub.on_search Stub.healthy;
  Stub.on_chat := Stub.on_chat Stub.healthy;
  Stub.on_upsert := fun _ => inl (ServiceError (lit "read-only index"));
  Stub.files := []
|}.

(** A folder with a near-empty file and a document of two chunks. *)
Definition small_library : Stub.Script := {|
  Stub.on_encode := Stub.on_encode Stub.healthy;
  Stub.on_search := Stub.on_search Stub.healthy;
  Stub.on_chat := Stub.on_chat Stub.healthy;
  Stub.on_upsert := Stub.on_upsert Stub.healthy;
  Stub.files := [(lit "stub.md", inr (lit "  todo  "));
                 (lit "ch1.md", inr Stub.two_chunk_document)]
|}.

End Scenario.

(** * Properties *)

(** ** Strings: strip, split and join *)

Section StrFacts.

Lemma dropwhile_length {A} (f : A -> bool) (s : list A) :
  (length (dropwhile f s) <= length s)%nat.
Proof.
  induction s as [|c s IH]; simpl; [lia|].
  destruct (f c); simpl; lia.
Qed.

Lemma dropwhile_filter {A} (f : A -> bool) (s : list A) :
  filter (fun c => negb (f c)) (dropwhile f s)
  = filter (fun c => negb (f c)) s.
Proof.
  induction s as [|c s IH]; simpl; [reflexivity|].
  destruct (f c) eqn:E; simpl; [exact IH|].
  rewrite E; reflexivity.
Qed.

Lemma dropwhile_all {A} (f : A -> bool) (s : list A) :
  forallb f s = true -> dropwhile f s = [].
Proof.
  induction s as [|c s IH]; simpl; [reflexivity|].
  destruct (f c); simpl; [exact IH | discriminate].
Qed.

Lemma dropwhile_app {A} (f : A -> bool) (s t : list A) :
  dropwhile f (s ++ t)
  = if forallb f s then dropwhile f t else dropwhile f s ++ t.
Proof.
  induction s as [|c s IH]; simpl; [reflexivity|].
  destruct (f c); simpl; [exact IH | reflexivity].
Qed.

Lemma forallb_rev {A} (f : A -> bool) (s : list A) :
  forallb f (rev s) = forallb f s.
Proof.
  induction s as [|c s IH]; simpl; [reflexivity|].
  rewrite forallb_app, IH; simpl.
  rewrite andb_true_r; apply andb_comm.
Qed.

Lemma filter_rev' {A} (f : A -> bool) (s : list A) :
  filter f (rev s) = rev (filter f s).
Proof.
  induction s as [|c s IH]; simpl; [reflexivity|].
  rewrite filter_app, IH; simpl.
  destruct (f c); simpl; [reflexivity | apply app_nil_r].
Qed.

Lemma rstrip_app_space (s ws : str) :
  forallb isspace ws = true -> rstrip (s ++ ws) = rstrip s.
Proof.
  intros H; unfold rstrip.
  rewrite rev_app_distr, dropwhile_app, forallb_rev, H; reflexivity.
Qed.

Lemma strip_app_space (s ws : str) :
  forallb isspace ws = true -> strip (s ++ ws) = strip s.
Proof.
  intros H; unfold strip, lstrip.
  rewrite dropwhile_app.
  destruct (forallb isspace s) eqn:E.
  - rewrite (dropwhile_all _ _ H), (dropwhile_all _ _ E); reflexivity.
  - apply rstrip_app_space, H.
Qed.

Lemma strip_length (s : str) : len (strip s) <= len s.
Proof.
  unfold len, strip, rstrip, lstrip.
  rewrite length_rev.
  pose proof (dropwhile_length isspace (rev (dropwhile isspace s))) as H1.
  rewrite length_rev in H1.
  pose proof (dropwhile_length isspace s) as H2.
  lia.
Qed.

Lemma strip_nonspace (s : str) :
  filter nonspace (strip s) = filter nonspace s.
Proof.
  unfold strip, rstrip, lstrip, nonspace.
  rewrite filter_rev', dropwhile_filter, filter_rev', rev_involutive.
  apply dropwhile_filter.
Qed.

Lemma strip_all_space (s : str) : forallb isspace s = true -> strip s = [].
Proof.
  intros H; unfold strip, lstrip.
  rewrite (dropwhile_all _ _ H); reflexivity.
Qed.

Lemma all_space_filter (s : str) :
  forallb isspace s = true <-> filter nonspace s = [].
Proof.
  unfold nonspace.
  induction s as [|c s IH]; simpl; [tauto|].
  destruct (isspace c); simpl; [exact IH|].
  split; discriminate.
Qed.

Lemma nn_space : forallb isspace nn = true.
Proof. reflexivity. Qed.

Lemma cons_head_nonempty (c : N) (ps : list str) : cons_head c ps <> [].
Proof. destruct ps; discriminate. Qed.

Lemma split_nn_cons2 (c d : N) (s : str) :
  split_nn (c :: d :: s)
  = if (N.eqb c 10 && N.eqb d 10)%bool then [] :: split_nn s
    else cons_head c (split_nn (d :: s)).
Proof. reflexivity. Qed.

Lemma split_nn_nonempty (s : str) : split_nn s <> [].
Proof.
  destruct s as [|c [|d s]]; [discriminate | discriminate |].
  rewrite split_nn_cons2.
  destruct (N.eqb c 10 && N.eqb d 10)%bool;
    [discriminate | apply cons_head_nonempty].
Qed.

Lemma join_cons_head (c : N) (ps : list str) :
  ps <> [] -> join nn (cons_head c ps) = c :: join nn ps.
Proof.
  destruct ps as [|p [|q ps]]; simpl; congruence.
Qed.

Lemma join_split_nn_le (n : nat) :
  forall s, (length s <= n)%nat -> join nn (split_nn s) = s.
Proof.
  induction n as [|n IH]; intros s Hs.
  - destruct s; [reflexivity | simpl in Hs; lia].
  - destruct s as [|c [|d s]]; [reflexivity | reflexivity |].
    simpl in Hs.
    rewrite split_nn_cons2.
    destruct (N.eqb c 10 && N.eqb d 10)%bool eqn:E.
    + apply andb_prop in E; destruct E as [Ec Ed].
      apply N.eqb_eq in Ec, Ed; subst c d.
      assert (Hj : join nn (split_nn s) = s) by (apply IH; lia).
      destruct (split_nn s) as [|p ps] eqn:Es;
        [exfalso; exact (split_nn_nonempty s Es)|].
      change (join nn ([] :: p :: ps)) with ([] ++ nn ++ join nn (p :: ps)).
      rewrite Hj; reflexivity.
    + rewrite join_cons_head by apply split_nn_nonempty.
      f_equal; apply IH; simpl; lia.
Qed.

(** Joining the paragraphs with the separator gives the text back. *)
Lemma join_split_nn (s : str) : join nn (split_nn s) = s.
Proof. exact (join_split_nn_le (length s) s (le_n _)). Qed.

Lemma join_nonspace (ps : list str) :
  filter nonspace (join nn ps) = filter nonspace (concat ps).
Proof.
  induction ps as [|p [|q ps] IH]; simpl.
  - reflexivity.
  - rewrite app_nil_r; reflexivity.
  - rewrite !filter_app. f_equal.
    simpl in IH. rewrite <- filter_app. exact IH.
Qed.

Lemma len_app {A} (s t : list A) : len (s ++ t) = len s + len t.
Proof. unfold len; rewrite length_app; lia. Qed.

Lemma len_nonneg {A} (s : list A) : 0 <= len s.
Proof. unfold len; lia. Qed.

Lemma len_nn : len nn = 2.
Proof. reflexivity. Qed.

End StrFacts.

(** ** The chunker: how the loop groups the paragraphs *)

Section ChunkerFacts.

Variable max_length : Z.

Lemma flat_app (g h : list str) : flat (g ++ h) = flat g ++ flat h.
Proof. unfold flat; rewrite map_app, concat_app; reflexivity. Qed.

Lemma flat_snoc (g : list str) (para : str) :
  flat g ++ (para ++ nn) = flat (g ++ [para]).
Proof. rewrite flat_app; unfold flat; simpl; rewrite app_nil_r; reflexivity. Qed.

Lemma flat_single (para : str) : flat [para] = para ++ nn.
Proof. unfold flat; simpl; apply app_nil_r. Qed.

Lemma flat_truthy (g : list str) : truthy (flat g) = truthy g.
Proof.
  destruct g as [|p g]; [reflexivity|].
  unfold flat; simpl. destruct p; reflexivity.
Qed.

Lemma flat_join (g : list str) : g <> [] -> flat g = join nn g ++ nn.
Proof.
  induction g as [|p [|q g] IH]; intros H; [congruence | apply flat_single |].
  change (flat (p :: q :: g)) with ((p ++ nn) ++ flat (q :: g)).
  rewrite IH by discriminate.
  change (join nn (p :: q :: g)) with (p ++ nn ++ join nn (q :: g)).
  rewrite <- !app_assoc; reflexivity.
Qed.

Lemma flat_In_len (g : list str) (para : str) :
  In para g -> len para + 2 <= len (flat g).
Proof.
  induction g as [|p g IH]; intros H; [destruct H|].
  change (flat (p :: g)) with ((p ++ nn) ++ flat g).
  rewrite !len_app, len_nn.
  pose proof (len_nonneg (flat g)). pose proof (len_nonneg p).
  destruct H as [-> | H]; [lia|].
  specialize (IH H). lia.
Qed.

Lemma strip_flat (g : list str) : g <> [] -> strip (flat g) = strip (join nn g).
Proof.
  intros H; rewrite (flat_join g H); apply strip_app_space, nn_space.
Qed.

Lemma flat_nonspace (g : list str) :
  filter nonspace (flat g) = filter nonspace (concat g).
Proof.
  induction g as [|p g IH]; [reflexivity|].
  change (flat (p :: g)) with ((p ++ nn) ++ flat g).
  simpl concat. rewrite !filter_app, IH, app_nil_r; reflexivity.
Qed.

(** The loop, started on the buffer of a group [g], cuts [g ++ paragraphs]
    into consecutive groups: it appends one chunk per finished group and
    leaves the buffer of the last one. *)
Lemma split_loop_groups (paragraphs : list str) :
  forall (chunks : list str) (g : list str),
    g = [] \/ group_ok max_length g ->
    exists (gs : list (list str)) (g' : list str),
      split_loop max_length paragraphs chunks (flat g)
      = (chunks ++ map (fun x => strip (flat x)) gs, flat g')
      /\ g ++ paragraphs = concat gs ++ g'
      /\ Forall (fun x => x <> [] /\ group_ok max_length x) gs
      /\ (g' = [] \/ group_ok max_length g')
      /\ (g' = [] -> g = [] /\ paragraphs = []).
Proof.
  induction paragraphs as [|para rest IH]; intros chunks g Hg.
  - exists [], g; simpl. rewrite !app_nil_r.
    refine (conj eq_refl (conj eq_refl (conj (Forall_nil _) (conj Hg _)))).
    intros H; split; [exact H | reflexivity].
  - simpl split_loop.
    destruct (len (flat g) + len para <? max_length) eqn:E.
    + apply Z.ltb_lt in E.
      rewrite flat_snoc.
      destruct (IH chunks (g ++ [para])) as (gs & g' & Hl & Hc & Hf & Hg' & Hn).
      { right; right. rewrite <- flat_snoc, !len_app, len_nn. lia. }
      exists gs, g'. rewrite Hl, <- Hc, <- app_assoc.
      refine (conj eq_refl (conj eq_refl (conj Hf (conj Hg' _)))).
      intros H; apply Hn in H; destruct H as [H _].
      destruct g; discriminate.
    + rewrite flat_truthy, <- flat_single.
      destruct g as [|p g]; simpl truthy.
      * destruct (IH chunks [para]) as (gs & g' & Hl & Hc & Hf & Hg' & Hn).
        { right; left; eauto. }
        exists gs, g'. rewrite Hl.
        refine (conj eq_refl (conj Hc (conj Hf (conj Hg' _)))).
        intros H; apply Hn in H; destruct H; discriminate.
      * destruct (IH (chunks ++ [strip (flat (p :: g))]) [para])
          as (gs & g' & Hl & Hc & Hf & Hg' & Hn).
        { right; left; eauto. }
        exists ((p :: g) :: gs), g'. rewrite Hl.
        refine (conj _ (conj _ (conj _ (conj Hg' _)))).
        -- rewrite <- app_assoc; reflexivity.
        -- change (concat ((p :: g) :: gs)) with ((p :: g) ++ concat gs).
           rewrite <- app_assoc, <- Hc; reflexivity.
        -- constructor; [split; [discriminate|] | exact Hf].
           destruct Hg as [Hg|Hg]; [discriminate | exact Hg].
        -- intros H; apply Hn in H; destruct H; discriminate.
Qed.

(** After the loop over the paragraphs of any text the buffer is not empty. *)
Lemma split_loop_buffer (text : str) :
  exists (gs : list (list str)) (g : list str),
    split_loop max_length (split_nn text) [] []
    = (map (fun x => strip (flat x)) gs, flat g)
    /\ split_nn text = concat gs ++ g
    /\ Forall (fun x => x <> [] /\ group_ok max_length x) gs
    /\ group_ok max_length g /\ g <> [].
Proof.
  destruct (split_loop_groups (split_nn text) [] [] (or_introl eq_refl))
    as (gs & g & Hl & Hc & Hf & Hg & Hn).
  exists gs, g. simpl in Hl, Hc.
  assert (g <> []) as Hne.
  { intros H; apply Hn in H; destruct H as [_ H].
    exact (split_nn_nonempty text H). }
  refine (conj Hl (conj Hc (conj Hf (conj _ Hne)))).
  destruct Hg as [Hg|Hg]; [contradiction | exact Hg].
Qed.

(** [split_content] returns, in order, the stripped joins of consecutive
    groups of paragraphs. *)
Lemma split_content_groups (text : str) :
  exists groups : list (list str),
    split_content text max_length
    = map (fun g => strip (join nn g)) groups
    /\ concat groups = split_nn text
    /\ groups <> []
    /\ Forall (fun g => g <> [] /\ group_ok max_length g) groups.
Proof.
  destruct (split_loop_buffer text) as (gs & g & Hl & Hc & Hf & Hg & Hne).
  exists (gs ++ [g]). unfold split_content. rewrite Hl.
  rewrite flat_truthy.
  destruct g as [|p g]; [congruence|]. simpl truthy.
  assert (Hall : Forall (fun g => g <> [] /\ group_ok max_length g) (gs ++ [p :: g])).
  { apply Forall_app; split; [exact Hf|]. constructor; auto. }
  assert (Hm : map (fun x => strip (flat x)) gs ++ [strip (flat (p :: g))]
               = map (fun g => strip (join nn g)) (gs ++ [p :: g])).
  { change [strip (flat (p :: g))]
      with (map (fun x => strip (flat x)) [p :: g]).
    rewrite <- map_app. apply map_ext_in.
    intros x Hx. apply strip_flat.
    rewrite Forall_forall in Hall. apply (Hall x Hx). }
  rewrite Hm.
  refine (conj _ (conj _ (conj _ Hall))).
  - destruct (map _ (gs ++ [p :: g])) eqn:E; [|reflexivity].
    apply map_eq_nil in E. destruct gs; discriminate.
  - rewrite concat_app, Hc; simpl; rewrite app_nil_r; reflexivity.
  - destruct gs; discriminate.
Qed.

End ChunkerFacts.

(** ** The chunker: what [split_content] returns *)

Section SplitContent.

Lemma concat_groups_nonspace (groups : list (list str)) :
  filter nonspace (concat (map (fun g => strip (join nn g)) groups))
  = filter nonspace (concat (concat groups)).
Proof.
  induction groups as [|g groups IH]; [reflexivity|].
  simpl. rewrite concat_app, !filter_app, IH.
  rewrite strip_nonspace, join_nonspace; reflexivity.
Qed.

Lemma split_content_nonspace (text : str) (max_length : Z) :
  filter nonspace (concat (split_content text max_length))
  = filter nonspace text.
Proof.
  destruct (split_content_groups max_length text) as (groups & -> & Hc & _).
  rewrite concat_groups_nonspace, Hc, <- join_nonspace, join_split_nn.
  reflexivity.
Qed.

Lemma filter_concat_nil {A} (f : A -> bool) (l : list (list A)) :
  filter f (concat l) = [] -> forall x, In x l -> filter f x = [].
Proof.
  induction l as [|y l IH]; intros H x Hx; [destruct Hx|].
  simpl in H. rewrite filter_app in H.
  apply app_eq_nil in H. destruct H as [Hy Hl].
  destruct Hx as [<- | Hx]; [exact Hy | exact (IH Hl x Hx)].
Qed.

(** While everything still to come fits, the loop only appends. *)
Lemma split_loop_fits (max_length : Z) (paragraphs : list str) :
  forall (chunks : list str) (g : list str),
    paragraphs <> [] ->
    len (flat g) + len (join nn paragraphs) < max_length ->
    split_loop max_length paragraphs chunks (flat g)
    = (chunks, flat (g ++ paragraphs)).
Proof.
  induction paragraphs as [|para [|q rest] IH]; intros chunks g Hne Hlen;
    [congruence | |].
  - simpl in *. apply Z.ltb_lt in Hlen. rewrite Hlen, flat_snoc. reflexivity.
  - change (join nn (para :: q :: rest))
      with (para ++ nn ++ join nn (q :: rest)) in Hlen.
    rewrite !len_app, len_nn in Hlen.
    pose proof (len_nonneg (join nn (q :: rest))) as Hq.
    change (split_loop max_length (para :: q :: rest) chunks (flat g))
      with (if len (flat g) + len para <? max_length
            then split_loop max_length (q :: rest) chunks
                   (flat g ++ (para ++ nn))
            else split_loop max_length (q :: rest)
                   (if truthy (flat g) then chunks ++ [strip (flat g)]
                    else chunks) (para ++ nn)).
    replace (len (flat g) + len para <? max_length) with true
      by (symmetry; apply Z.ltb_lt; lia).
    rewrite flat_snoc, IH.
    + rewrite <- app_assoc; reflexivity.
    + discriminate.
    + rewrite <- flat_snoc, !len_app, len_nn. lia.
Qed.

(** A text shorter than [max_length] comes back as one chunk, stripped. *)
Lemma split_content_short (text : str) (max_length : Z) :
  len text < max_length -> split_content text max_length = [strip text].
Proof.
  intros H. unfold split_content.
  change (@nil N) with (flat []) at 1.
  rewrite split_loop_fits.
  - simpl app. rewrite flat_truthy.
    destruct (split_nn text) as [|p ps] eqn:E;
      [exfalso; exact (split_nn_nonempty text E)|].
    simpl truthy. simpl app.
    rewrite strip_flat by discriminate.
    rewrite <- E, join_split_nn. reflexivity.
  - apply split_nn_nonempty.
  - rewrite join_split_nn. exact H.
Qed.

End SplitContent.

(** C3: every chunk [split_content] returns is at most [max_length] long,
    unless it is a single paragraph (stripped) that is itself longer than
    [max_length]; and every such oversized paragraph is kept whole, as a
    chunk of its own. *)
Theorem split_content_chunk_bound (text : str) (max_length : Z) :
  (forall chunk, In chunk (split_content text max_length) ->
     len chunk <= max_length
     \/ exists para, In para (split_nn text)
                     /\ max_length < len para /\ chunk = strip para)
  /\ (forall para, In para (split_nn text) -> max_length < len para ->
        In (strip para) (split_content text max_length)).
Proof.
  destruct (split_content_groups max_length text) as (groups & -> & Hc & _ & Hf).
  rewrite Forall_forall in Hf.
  split.
  - intros chunk Hin. apply in_map_iff in Hin.
    destruct Hin as (g & <- & Hg).
    destruct (Hf g Hg) as [Hne [[para ->] | Hlen]].
    + simpl join.
      destruct (Z.ltb_spec max_length (len para)) as [Hbig | Hsmall].
      * right. exists para. rewrite <- Hc.
        refine (conj _ (conj Hbig eq_refl)).
        apply in_concat. exists [para]. split; [exact Hg | left; reflexivity].
      * left. pose proof (strip_length para). lia.
    + left. rewrite (flat_join g Hne), len_app, len_nn in Hlen.
      pose proof (strip_length (join nn g)). lia.
  - intros para Hin Hbig. rewrite <- Hc in Hin.
    apply in_concat in Hin. destruct Hin as (g & Hg & Hpg).
    apply in_map_iff. exists g. split; [|exact Hg].
    destruct (Hf g Hg) as [Hne [[p ->] | Hlen]].
    + destruct Hpg as [-> | []]. reflexivity.
    + pose proof (flat_In_len g para Hpg). lia.
Qed.

Lemma split_content_chunk_bound_witness :
  (len (lit "b") <= 3
   \/ exists para, In para (split_nn (lit "aaaa" ++ nn ++ lit "b"))
                   /\ 3 < len para /\ lit "b" = strip para)
  /\ In (strip (lit "aaaa")) (split_content (lit "aaaa" ++ nn ++ lit "b") 3).
Proof.
  split.
  - apply (proj1 (split_content_chunk_bound (lit "aaaa" ++ nn ++ lit "b") 3)).
    vm_compute. right; left; reflexivity.
  - apply (proj2 (split_content_chunk_bound (lit "aaaa" ++ nn ++ lit "b") 3)).
    + vm_compute. left; reflexivity.
    + reflexivity.
Defined.

(** C4, as stated, fails: the text " a" has two characters, neither of them
    an inserted separator, and comes back as the one chunk "a". The leading
    space is dropped, so neither joining the chunks with the separator nor
    comparing them with the paragraphs gives the text back. *)
Lemma split_content_drops_edge_whitespace :
  split_content (lit " a") 1000 = [lit "a"]
  /\ join nn (split_content (lit " a") 1000) <> lit " a"
  /\ concat (split_content (lit " a") 1000) <> concat (split_nn (lit " a"))
  /\ (length (concat (split_content (lit " a") 1000)) < length (lit " a"))%nat.
Proof.
  vm_compute. repeat split; try discriminate. lia.
Qed.

(** C4, amended: the chunks are, in order, the stripped joins of consecutive
    groups of the text's paragraphs; the groups put end to end are exactly
    the paragraphs, and the paragraphs joined by the separator are the text.
    So the chunks hold the non-whitespace characters of the text, all of
    them and in order: only whitespace at the edges of a chunk is dropped. *)
Theorem split_content_reconstructs_modulo_strip (text : str) (max_length : Z) :
  (exists groups : list (list str),
      split_content text max_length = map (fun g => strip (join nn g)) groups
      /\ concat groups = split_nn text
      /\ join nn (split_nn text) = text)
  /\ filter nonspace (concat (split_content text max_length))
     = filter nonspace text.
Proof.
  split; [|apply split_content_nonspace].
  destruct (split_content_groups max_length text) as (groups & Hs & Hc & _).
  exists groups. exact (conj Hs (conj Hc (join_split_nn text))).
Qed.

(** C10, as stated, fails in its last part: a whitespace-only text of two
    paragraphs that do not fit together gives two empty chunks, not one
    (shown for [max_length = 1], and for the default 1000 with a first
    paragraph of a thousand spaces). *)
Lemma split_content_whitespace_two_chunks :
  (forallb isspace (lit " " ++ nn ++ lit " ") = true
   /\ split_content (lit " " ++ nn ++ lit " ") 1 = [[]; []])
  /\ (forallb isspace (repeat 32%N 1000 ++ nn ++ lit " ") = true
      /\ split_content (repeat 32%N 1000 ++ nn ++ lit " ") 1000 = [[]; []]).
Proof.
  vm_compute. repeat split.
Qed.

(** C10, amended: [split_content] never returns the empty list; its [[text]]
    fallback is never taken, because the buffer is non-empty after the loop;
    on a whitespace-only text every chunk returned is the empty string, and
    there is exactly one when the text is shorter than [max_length]. *)
Theorem split_content_nonempty (text : str) (max_length : Z) :
  split_content text max_length <> []
  /\ fallback_taken text max_length = false
  /\ (exists chunks current_chunk,
         split_loop max_length (split_nn text) [] [] = (chunks, current_chunk)
         /\ current_chunk <> [])
  /\ (forallb isspace text = true ->
      Forall (fun chunk => chunk = []) (split_content text max_length))
  /\ (forallb isspace text = true -> len text < max_length ->
      split_content text max_length = [[]]).
Proof.
  destruct (split_loop_buffer max_length text) as (gs & g & Hl & _ & _ & _ & Hne).
  assert (Hcur : flat g <> []).
  { intros H. pose proof (flat_truthy g) as Ht. rewrite H in Ht.
    destruct g; [congruence | discriminate]. }
  refine (conj _ (conj _ (conj _ (conj _ _)))).
  - unfold split_content. rewrite Hl.
    destruct (flat g); [congruence|]. simpl truthy.
    destruct (map _ gs); discriminate.
  - unfold fallback_taken. rewrite Hl.
    destruct (flat g); [congruence|]. simpl truthy.
    destruct (map _ gs); reflexivity.
  - exists (map (fun x => strip (flat x)) gs), (flat g). exact (conj Hl Hcur).
  - intros Hws. apply all_space_filter in Hws.
    pose proof (split_content_nonspace text max_length) as Hns.
    rewrite Hws in Hns.
    destruct (split_content_groups max_length text) as (groups & Hs & _).
    rewrite Hs in *. apply Forall_forall. intros chunk Hin.
    pose proof (filter_concat_nil _ _ Hns chunk Hin) as Hc.
    apply in_map_iff in Hin. destruct Hin as (y & <- & _).
    rewrite strip_nonspace in Hc. apply all_space_filter in Hc.
    apply strip_all_space, Hc.
  - intros Hws Hlen. rewrite (split_content_short text max_length Hlen).
    rewrite (strip_all_space text Hws). reflexivity.
Qed.

Lemma split_content_nonempty_witness :
  Forall (fun chunk => chunk = []) (split_content (lit " " ++ nn ++ lit " ") 1)
  /\ split_content (lit "   ") 1000 = [[]].
Proof.
  split.
  - apply (proj1 (proj2 (proj2 (proj2
             (split_content_nonempty (lit " " ++ nn ++ lit " ") 1))))).
    reflexivity.
  - apply (proj2 (proj2 (proj2 (proj2
             (split_content_nonempty (lit "   ") 1000))))).
    + reflexivity.
    + reflexivity.
Defined.

(** ** The RAG service: retrieval *)

Section Retrieval.

Context {W : Type} (sv : Services W).

Local Opaque lit.

(** A failing embedding is logged twice, by [embed_text] and by [search],
    and leaves no result. *)
Lemma search_embedding_failure (query : str) (limit : Z) (w w1 : W) (e : Exn) :
  encode sv query w = (w1, inl e) ->
  search sv query limit w
  = ([EvEncode query (inl e);
      EvLogError (lit "Error embedding text: " ++ str_of_exn e);
      EvLogError (lit "Error searching: " ++ str_of_exn e)],
     w1, inr []).
Proof.
  intros H.
  unfold search, embed_text, try_except, bind, call, emit, raise, ret.
  rewrite H. reflexivity.
Qed.

(** A failing index search is logged by [search] and leaves no result. *)
Lemma search_index_failure (query : str) (limit : Z) (w w1 w2 : W)
      (v : Vector) (e : Exn) :
  encode sv query w = (w1, inr v) ->
  qsearch sv collection_name v limit w1 = (w2, inl e) ->
  search sv query limit w
  = ([EvEncode query (inr v);
      EvSearch collection_name v limit (inl e);
      EvLogError (lit "Error searching: " ++ str_of_exn e)],
     w2, inr []).
Proof.
  intros H1 H2.
  unfold search, embed_text, try_except, bind, call, emit, raise, ret.
  rewrite H1, H2. reflexivity.
Qed.

(** [search] never raises and never calls the generative model. *)
Lemma search_total (query : str) (limit : Z) (w : W) :
  (exists docs, result_of (search sv query limit w) = inr docs)
  /\ existsb is_chat_call (trace_of (search sv query limit w)) = false.
Proof.
  unfold search, embed_text, try_except, bind, call, emit, raise, ret.
  destruct (encode sv query w) as [w1 [e | v]].
  - simpl. eauto.
  - destruct (qsearch sv collection_name v limit w1) as [w2 [e | hits]].
    + simpl. eauto.
    + destruct (docs_of_hits hits) as [e | docs]; simpl; eauto.
Qed.

(** Retrieval, with or without an explicit context, never calls the
    generative model. *)
Lemma relevant_docs_no_chat (question : str) (context : option str) (w : W) :
  existsb is_chat_call (trace_of (relevant_docs sv question context w)) = false.
Proof.
  destruct context as [[|c ctx]|]; simpl;
    [apply search_total | reflexivity | apply search_total].
Qed.

(** Without a truthy explicit context, retrieval is a search with limit 3. *)
Lemma relevant_docs_search (question : str) (context : option str) :
  context = None \/ context = Some [] ->
  relevant_docs sv question context = search sv question 3.
Proof. intros [-> | ->]; reflexivity. Qed.

End Retrieval.

(** ** The RAG service: answering *)

Section Answering.

Context {W : Type} (sv : Services W).

Local Opaque lit.

(** [generate_answer], case by case on what retrieval and the generative
    model give. *)
Lemma generate_answer_none (question : str) (context : option str)
      (w w1 : W) (t : list Event) :
  relevant_docs sv question context w = (t, w1, inr []) ->
  generate_answer sv question context w = (t, w1, inr not_found_result).
Proof.
  intros H. unfold generate_answer, try_except, bind, ret.
  rewrite H. cbn [truthy negb]. rewrite app_nil_r. reflexivity.
Qed.

Lemma generate_answer_answered (question : str) (context : option str)
      (w w1 w2 : W) (t : list Event) (doc : Doc) (docs : list Doc)
      (content : str) (rest : list str) :
  relevant_docs sv question context w = (t, w1, inr (doc :: docs)) ->
  ask sv (doc :: docs) question w1 = (w2, inr (content :: rest)) ->
  generate_answer sv question context w
  = (t ++ [asked (doc :: docs) question (inr (content :: rest))], w2,
     inr {| answer := content; sources := map source (doc :: docs);
            confidence := score doc |}).
Proof.
  intros H1 H2. unfold ask in H2.
  unfold generate_answer, try_except, bind, call, ret.
  rewrite H1. cbn [truthy negb]. rewrite H2.
  cbn [app]. rewrite ?app_nil_r. reflexivity.
Qed.

Lemma generate_answer_model_error (question : str) (context : option str)
      (w w1 w2 : W) (t : list Event) (doc : Doc) (docs : list Doc) (e : Exn) :
  relevant_docs sv question context w = (t, w1, inr (doc :: docs)) ->
  ask sv (doc :: docs) question w1 = (w2, inl e) ->
  generate_answer sv question context w
  = ((t ++ [asked (doc :: docs) question (inl e)])
     ++ [EvLogError (lit "Error generating answer: " ++ str_of_exn e)],
     w2, inl e).
Proof.
  intros H1 H2. unfold ask in H2.
  unfold generate_answer, try_except, bind, call, ret, emit, raise.
  rewrite H1. cbn [truthy negb]. rewrite H2.
  cbn [app]. rewrite ?app_nil_r. reflexivity.
Qed.

Lemma generate_answer_no_choice (question : str) (context : option str)
      (w w1 w2 : W) (t : list Event) (doc : Doc) (docs : list Doc) :
  relevant_docs sv question context w = (t, w1, inr (doc :: docs)) ->
  ask sv (doc :: docs) question w1 = (w2, inr []) ->
  generate_answer sv question context w
  = ((t ++ [asked (doc :: docs) question (inr [])])
     ++ [EvLogError (lit "Error generating answer: " ++ str_of_exn IndexError)],
     w2, inl IndexError).
Proof.
  intros H1 H2. unfold ask in H2.
  unfold generate_answer, try_except, bind, call, ret, emit, raise.
  rewrite H1. cbn [truthy negb]. rewrite H2.
  cbn [app]. rewrite ?app_nil_r. reflexivity.
Qed.

(** Whatever the generative model does, a result that is returned carries
    the sources and the top score of the documents retrieved. *)
Lemma generate_answer_result (question : str) (context : option str)
      (w w1 : W) (t : list Event) (doc : Doc) (docs : list Doc)
      (res : AnswerResult) :
  relevant_docs sv question context w = (t, w1, inr (doc :: docs)) ->
  result_of (generate_answer sv question context w) = inr res ->
  sources res = map source (doc :: docs) /\ confidence res = score doc.
Proof.
  intros H1 Hres.
  destruct (ask sv (doc :: docs) question w1) as [w2 [e | [|content rest]]] eqn:E.
  - rewrite (generate_answer_model_error _ _ _ _ _ _ _ _ _ H1 E) in Hres.
    discriminate.
  - rewrite (generate_answer_no_choice _ _ _ _ _ _ _ _ H1 E) in Hres.
    discriminate.
  - rewrite (generate_answer_answered _ _ _ _ _ _ _ _ _ _ H1 E) in Hres.
    injection Hres as <-. split; reflexivity.
Qed.

End Answering.

(** C1: with a non-empty explicit context, [generate_answer] calls neither
    the embedding model nor the index search; any result it returns has the
    source list ["Selected Text"] and confidence 1.0; and it does return
    that result as soon as the generative model gives an answer. *)
Theorem generate_answer_explicit_context {W : Type} (sv : Services W)
        (question context : str) (w : W) :
  context <> [] ->
  existsb is_retrieval_call
          (trace_of (generate_answer sv question (Some context) w)) = false
  /\ (forall res,
         result_of (generate_answer sv question (Some context) w) = inr res ->
         sources res = [lit "Selected Text"] /\ confidence res = 1%float)
  /\ (forall w' content rest,
         ask sv [selected_text context] question w
         = (w', inr (content :: rest)) ->
         generate_answer sv question (Some context) w
         = ([asked [selected_text context] question (inr (content :: rest))],
            w',
            inr {| answer := content; sources := [lit "Selected Text"];
                   confidence := 1%float |})).
Proof.
  intros Hne.
  assert (Hdocs : relevant_docs sv question (Some context) w
                  = ([], w, inr [selected_text context]))
    by (destruct context; [congruence | reflexivity]).
  refine (conj _ (conj _ _)).
  - destruct (ask sv [selected_text context] question w)
      as [w' [e | [|content rest]]] eqn:E.
    + rewrite (generate_answer_model_error sv _ _ _ _ _ _ _ _ _ Hdocs E).
      reflexivity.
    + rewrite (generate_answer_no_choice sv _ _ _ _ _ _ _ _ Hdocs E).
      reflexivity.
    + rewrite (generate_answer_answered sv _ _ _ _ _ _ _ _ _ _ Hdocs E).
      reflexivity.
  - intros res Hres.
    exact (generate_answer_result sv _ _ _ _ _ _ _ _ Hdocs Hres).
  - intros w' content rest E.
    exact (generate_answer_answered sv _ _ _ _ _ _ _ _ _ _ Hdocs E).
Qed.

Lemma generate_answer_explicit_context_witness :
  existsb is_retrieval_call
    (trace_of (generate_answer (Stub.services Stub.healthy)
                 (lit "What is a robot?") (Some (lit "Robots are machines."))
                 tt)) = false
  /\ result_of (generate_answer (Stub.services Stub.healthy)
                  (lit "What is a robot?") (Some (lit "Robots are machines."))
                  tt)
     = inr {| answer := lit "It is a robot shaped like a person.";
              sources := [lit "Selected Text"]; confidence := 1%float |}.
Proof.
  destruct (generate_answer_explicit_context (Stub.services Stub.healthy)
              (lit "What is a robot?") (lit "Robots are machines.") tt)
    as (H1 & _ & H3).
  - vm_compute. discriminate.
  - split; [exact H1|].
    rewrite (H3 tt (lit "It is a robot shaped like a person.") [] eq_refl).
    reflexivity.
Defined.

(** C2: when retrieval gives no document, [generate_answer] returns, without
    raising, the fixed not-found text with no source and confidence 0.0, and
    its trace holds no call to the generative model. *)
Theorem generate_answer_no_results {W : Type} (sv : Services W)
        (question : str) (context : option str) (w w1 : W) (t : list Event) :
  relevant_docs sv question context w = (t, w1, inr []) ->
  generate_answer sv question context w
  = (t, w1,
     inr {| answer :=
              lit "I couldn't find relevant information in the textbook to answer your question.";
            sources := []; confidence := 0%float |})
  /\ existsb is_chat_call
             (trace_of (generate_answer sv question context w)) = false.
Proof.
  intros H. rewrite (generate_answer_none sv _ _ _ _ _ H).
  split; [reflexivity|].
  pose proof (relevant_docs_no_chat sv question context w) as Hc.
  rewrite H in Hc. exact Hc.
Qed.

Lemma generate_answer_no_results_witness :
  result_of (generate_answer (Stub.services Stub.embedder_down)
               (lit "What is a humanoid robot?") None tt)
  = inr not_found_result
  /\ existsb is_chat_call
       (trace_of (generate_answer (Stub.services Stub.embedder_down)
                    (lit "What is a humanoid robot?") None tt)) = false.
Proof.
  destruct (generate_answer_no_results (Stub.services Stub.embedder_down)
              (lit "What is a humanoid robot?") None tt tt _ eq_refl)
    as (H1 & H2).
  split; [rewrite H1; reflexivity | exact H2].
Defined.

(** C5: when retrieval gives at least one document, the confidence of any
    result [generate_answer] returns is the score of the first document, and
    such a result is returned as soon as the generative model answers. *)
Theorem generate_answer_confidence {W : Type} (sv : Services W)
        (question : str) (context : option str) (w w1 : W) (t : list Event)
        (doc : Doc) (docs : list Doc) :
  relevant_docs sv question context w = (t, w1, inr (doc :: docs)) ->
  (forall res,
      result_of (generate_answer sv question context w) = inr res ->
      confidence res = score doc)
  /\ (forall w2 content rest,
         ask sv (doc :: docs) question w1 = (w2, inr (content :: rest)) ->
         exists res,
           result_of (generate_answer sv question context w) = inr res
           /\ confidence res = score doc).
Proof.
  intros H. split.
  - intros res Hres.
    exact (proj2 (generate_answer_result sv _ _ _ _ _ _ _ _ H Hres)).
  - intros w2 content rest E.
    rewrite (generate_answer_answered sv _ _ _ _ _ _ _ _ _ _ H E).
    eexists; split; reflexivity.
Qed.

Lemma generate_answer_confidence_witness :
  exists res,
    result_of (generate_answer (Stub.services Stub.healthy)
                 (lit "What is a humanoid robot?") None tt) = inr res
    /\ confidence res = 0.75%float.
Proof.
  exact (proj2 (generate_answer_confidence (Stub.services Stub.healthy)
                  (lit "What is a humanoid robot?") None tt tt _ _ _ eq_refl)
               tt (lit "It is a robot shaped like a person.") [] eq_refl).
Defined.

(** C6: when the embedding succeeded and the index search raises, [search]
    returns the empty list instead of raising, and [generate_answer] without
    an explicit context goes on to return the not-found result. *)
Theorem search_failure_degrades {W : Type} (sv : Services W)
        (query : str) (limit : Z) (w w1 w2 : W) (v : Vector) (e : Exn) :
  encode sv query w = (w1, inr v) ->
  qsearch sv collection_name v limit w1 = (w2, inl e) ->
  result_of (search sv query limit w) = inr []
  /\ (limit = 3 ->
      forall context, context = None \/ context = Some [] ->
        generate_answer sv query context w
        = (trace_of (search sv query 3 w), w2, inr not_found_result)).
Proof.
  intros H1 H2.
  pose proof (search_index_failure sv _ _ _ _ _ _ _ H1 H2) as Hs.
  split; [rewrite Hs; reflexivity|].
  intros -> context Hc.
  apply generate_answer_none.
  rewrite (relevant_docs_search sv query context Hc), Hs. reflexivity.
Qed.

Lemma search_failure_degrades_witness :
  result_of (search (Stub.services Stub.index_down)
               (lit "What is a humanoid robot?") 3 tt) = inr []
  /\ result_of (generate_answer (Stub.services Stub.index_down)
                  (lit "What is a humanoid robot?") None tt)
     = inr not_found_result.
Proof.
  destruct (search_failure_degrades (Stub.services Stub.index_down)
              (lit "What is a humanoid robot?") 3 tt tt tt _ _
              eq_refl eq_refl) as (H1 & H2).
  split; [exact H1|].
  rewrite (H2 eq_refl None (or_introl eq_refl)). reflexivity.
Defined.

(** C7: when documents were retrieved and the call to the generative model
    raises, [generate_answer] logs the exception and raises that same
    exception to its caller, having made that one call to the model and no
    other; it returns no result in its place. *)
Theorem generate_answer_model_failure {W : Type} (sv : Services W)
        (question : str) (context : option str) (w w1 w2 : W)
        (t : list Event) (doc : Doc) (docs : list Doc) (e : Exn) :
  relevant_docs sv question context w = (t, w1, inr (doc :: docs)) ->
  ask sv (doc :: docs) question w1 = (w2, inl e) ->
  generate_answer sv question context w
  = ((t ++ [asked (doc :: docs) question (inl e)])
     ++ [EvLogError (lit "Error generating answer: " ++ str_of_exn e)],
     w2, inl e)
  /\ (forall res : AnswerResult,
         result_of (generate_answer sv question context w) <> inr res)
  /\ length (filter is_chat_call
                    (trace_of (generate_answer sv question context w)))
     = 1%nat.
Proof.
  intros Hdocs Hask.
  pose proof (generate_answer_model_error sv _ _ _ _ _ _ _ _ _ Hdocs Hask)
    as Hrun.
  refine (conj Hrun (conj _ _)).
  - intros res Hres. rewrite Hrun in Hres. discriminate.
  - rewrite Hrun. unfold trace_of; cbn [fst].
    rewrite !filter_app.
    pose proof (relevant_docs_no_chat sv question context w) as Hno.
    rewrite Hdocs in Hno. unfold trace_of in Hno; cbn [fst] in Hno.
    assert (Hnil : filter is_chat_call t = []).
    { clear - Hno. induction t as [|ev t' IH]; [reflexivity|].
      cbn [existsb] in Hno. apply orb_false_elim in Hno.
      destruct Hno as [Hev Ht]. cbn [filter]. rewrite Hev. exact (IH Ht). }
    rewrite Hnil. reflexivity.
Qed.

Lemma generate_answer_model_failure_witness :
  result_of (generate_answer (Stub.services Stub.model_down)
               (lit "What is a humanoid robot?") None tt)
  = inl (ServiceError (lit "rate limit")).
Proof.
  rewrite (proj1 (generate_answer_model_failure
                    (Stub.services Stub.model_down)
                    (lit "What is a humanoid robot?") None tt tt tt _ _ _ _
                    eq_refl eq_refl)).
  reflexivity.
Defined.

(** C9: when the embedding of the query raises, [search] returns the empty
    list instead of raising, and [generate_answer] without an explicit
    context returns the not-found result, with confidence 0.0. *)
Theorem embedding_failure_degrades {W : Type} (sv : Services W)
        (query : str) (limit : Z) (w w1 : W) (e : Exn) :
  encode sv query w = (w1, inl e) ->
  result_of (search sv query limit w) = inr []
  /\ (forall context, context = None \/ context = Some [] ->
        generate_answer sv query context w
        = (trace_of (search sv query 3 w), w1, inr not_found_result))
  /\ confidence not_found_result = 0%float.
Proof.
  intros H.
  refine (conj _ (conj _ eq_refl)).
  - rewrite (search_embedding_failure sv _ limit _ _ _ H). reflexivity.
  - intros context Hc. apply generate_answer_none.
    rewrite (relevant_docs_search sv query context Hc).
    rewrite (search_embedding_failure sv _ 3 _ _ _ H). reflexivity.
Qed.

Lemma embedding_failure_degrades_witness :
  result_of (search (Stub.services Stub.embedder_down)
               (lit "What is a humanoid robot?") 3 tt) = inr []
  /\ result_of (generate_answer (Stub.services Stub.embedder_down)
                  (lit "What is a humanoid robot?") (Some []) tt)
     = inr not_found_result.
Proof.
  destruct (embedding_failure_degrades (Stub.services Stub.embedder_down)
              (lit "What is a humanoid robot?") 3 tt tt _ eq_refl)
    as (H1 & H2 & _).
  split; [exact H1|].
  rewrite (H2 (Some []) (or_intror eq_refl)). reflexivity.
Defined.

(** ** The indexing driver *)

Section IndexRun.

Context {W : Type} (sv : Services W).

Local Opaque lit.

Lemma indexed_count_cons (ev : Event) (t : list Event) :
  indexed_count (ev :: t) = (if is_indexed ev then 1 else 0) + indexed_count t.
Proof.
  unfold indexed_count, len. cbn [filter].
  destruct (is_indexed ev); cbn [length]; lia.
Qed.

Lemma indexed_count_nil : indexed_count [] = 0.
Proof. reflexivity. Qed.

Lemma indexed_count_app (t1 t2 : list Event) :
  indexed_count (t1 ++ t2) = indexed_count t1 + indexed_count t2.
Proof. unfold indexed_count. rewrite filter_app. apply len_app. Qed.

Create Rewrite HintDb trace.

#[local] Hint Rewrite indexed_count_app indexed_count_cons indexed_count_nil
  : trace.

Ltac count_events :=
  autorewrite with trace; cbn [is_indexed doc_id world]; lia.

Lemma files_read_cons (ev : Event) (t : list Event) :
  files_read (ev :: t)
  = match ev with EvRead path _ => [path] | _ => [] end ++ files_read t.
Proof. reflexivity. Qed.

Lemma files_read_app (t1 t2 : list Event) :
  files_read (t1 ++ t2) = files_read t1 ++ files_read t2.
Proof. apply flat_map_app. Qed.

(** [add_document] opens no file, and puts one chunk into the index exactly
    when it returns. *)
Lemma add_document_counts (text source : str) (d : Z) (w w' : W)
      (t : list Event) (r : Outcome unit) :
  add_document sv text source d w = (t, w', r) ->
  files_read t = []
  /\ indexed_count t = match r with inr _ => 1 | inl _ => 0 end.
Proof.
  unfold add_document, embed_text, try_except, bind, call, emit, raise, ret.
  destruct (encode sv text w) as [w1 [e | v]].
  - intros H; injection H as <- <- <-. split; reflexivity.
  - destruct (upsert sv collection_name d v text source w1) as [w2 [e | u]];
      intros H; injection H as <- <- <-; split; reflexivity.
Qed.

(** One turn of the loop over the chunks. *)
Lemma index_chunks_cons (source : str) (n i : nat) (chunk : str)
      (rest : list str) (l : Locals W) :
  index_chunks sv source n i (chunk :: rest) l
  = match add_document sv chunk (chunk_source source n i) (doc_id l) (world l)
    with
    | (t, w', inl e) =>
        (EvPrint (lit "Indexing: " ++ chunk_source source n i) :: t,
         {| world := w'; doc_id := doc_id l |}, inl e)
    | (t, w', inr _) =>
        let '(t2, l2, r) :=
          index_chunks sv source n (S i) rest
                       {| world := w'; doc_id := doc_id l + 1 |} in
        (EvPrint (lit "Indexing: " ++ chunk_source source n i) :: t ++ t2,
         l2, r)
    end.
Proof.
  cbn [index_chunks]. unfold bind at 1. unfold emit at 1.
  unfold bind at 1. unfold get_doc_id at 1.
  unfold bind at 1. unfold liftW at 1.
  destruct (add_document sv chunk (chunk_source source n i) (doc_id l) (world l))
    as [[t w'] [e | u]]; [reflexivity|].
  unfold bind at 1. unfold set_doc_id at 1. cbn [world doc_id].
  destruct (index_chunks sv source n (S i) rest
              {| world := w'; doc_id := doc_id l + 1 |}) as [[t2 l2] r].
  reflexivity.
Qed.

Lemma index_chunks_counts (source : str) (n : nat) (chunks : list str) :
  forall (i : nat) (l l' : Locals W) (t : list Event) (r : Outcome unit),
    index_chunks sv source n i chunks l = (t, l', r) ->
    files_read t = [] /\ doc_id l' = doc_id l + indexed_count t.
Proof.
  induction chunks as [|chunk rest IH]; intros i l l' t r H.
  - injection H as <- <- <-. split; [reflexivity | count_events].
  - rewrite index_chunks_cons in H.
    destruct (add_document sv chunk (chunk_source source n i) (doc_id l)
                           (world l)) as [[t1 w1] [e | u]] eqn:E;
      destruct (add_document_counts _ _ _ _ _ _ _ E) as [Hf Hc].
    + injection H as <- <- <-.
      change (EvPrint ?m :: t1) with ([EvPrint m] ++ t1).
      rewrite files_read_app, indexed_count_app, Hf, Hc.
      split; [reflexivity | count_events].
    + destruct (index_chunks sv source n (S i) rest
                  {| world := w1; doc_id := doc_id l + 1 |})
        as [[t2 l2] r2] eqn:E2.
      destruct (IH _ _ _ _ _ E2) as [Hf2 Hc2]. cbn [doc_id] in Hc2.
      injection H as <- <- <-.
      change (EvPrint ?m :: t1 ++ t2) with ([EvPrint m] ++ t1 ++ t2).
      rewrite !files_read_app, !indexed_count_app, Hf, Hf2, Hc, Hc2.
      split; [reflexivity | count_events].
Qed.


(** The body of the loop over the files never raises; it opens its file and
    nothing else, and moves [doc_id] by the chunks it indexed. *)
Lemma index_file_counts (md_file : str) (l l' : Locals W) (t : list Event)
      (r : Outcome unit) :
  index_file sv md_file l = (t, l', r) ->
  r = inr tt
  /\ files_read t = [full_path md_file]
  /\ doc_id l' = doc_id l + indexed_count t.
Proof.
  unfold index_file, try_except. unfold bind at 1. unfold liftW, call.
  destruct (read_file sv (full_path md_file) (world l)) as [w1 [e | content]].
  - unfold emit. intros H; injection H as <- <- <-.
    refine (conj eq_refl (conj eq_refl _)).
    count_events.
  - destruct (len (strip content) <? 50).
    + unfold ret. intros H; injection H as <- <- <-.
      refine (conj eq_refl (conj eq_refl _)).
    count_events.
    + unfold bind.
      destruct (index_chunks sv md_file (length (split_content content 1000))
                  0 (split_content content 1000)
                  {| world := w1; doc_id := doc_id l |})
        as [[t2 l2] [e | []]] eqn:E;
        destruct (index_chunks_counts _ _ _ _ _ _ _ _ E) as [Hf Hc];
        cbn [doc_id] in Hc; unfold emit;
        intros H; injection H as <- <- <-;
        rewrite ?files_read_cons, ?files_read_app, ?files_read_cons, Hf, Hc;
        refine (conj eq_refl (conj eq_refl _));
        count_events.
Qed.



(** The loop over the files never raises; it opens every file, in order,
    and moves [doc_id] by the chunks it indexed. *)
Lemma index_files_counts (md_files : list str) :
  forall (l l' : Locals W) (t : list Event) (r : Outcome unit),
    index_files sv md_files l = (t, l', r) ->
    r = inr tt
    /\ files_read t = map full_path md_files
    /\ doc_id l' = doc_id l + indexed_count t.
Proof.
  induction md_files as [|md_file rest IH]; intros l l' t r H.
  - injection H as <- <- <-.
    refine (conj eq_refl (conj eq_refl _)).
    count_events.
  - cbn [index_files] in H. unfold bind in H.
    destruct (index_file sv md_file l) as [[t1 l1] r1] eqn:E1.
    destruct (index_file_counts _ _ _ _ _ E1) as (-> & Hf1 & Hc1).
    destruct (index_files sv rest l1) as [[t2 l2] r2] eqn:E2.
    destruct (IH _ _ _ _ E2) as (-> & Hf2 & Hc2).
    injection H as <- <- <-.
    rewrite files_read_app, indexed_count_app, Hf1, Hf2.
    refine (conj eq_refl (conj eq_refl _)). lia.
Qed.

(** Building the service opens no file and indexes nothing. *)
Lemma init_counts (w w' : W) (t : list Event) (r : Outcome unit) :
  init sv w = (t, w', r) -> files_read t = [] /\ indexed_count t = 0.
Proof.
  unfold init, _ensure_collection, try_except, bind, call, emit, ret.
  destruct (load_model sv embedding_model_name w) as [w1 [e | u]];
    [intros H; injection H as <- <- <-; split; reflexivity|].
  destruct (new_http_client sv 30%float w1) as [wa [e | ua]];
    [intros H; injection H as <- <- <-; split; reflexivity|].
  destruct (new_openai_client sv wa) as [wb [e | ub]];
    [intros H; injection H as <- <- <-; split; reflexivity|].
  destruct (new_qdrant_client sv wb) as [wc [e | uc]];
    [intros H; injection H as <- <- <-; split; reflexivity|].
  destruct (get_collections sv wc) as [w2 [e | names]].
  - intros H; injection H as <- <- <-. split; reflexivity.
  - destruct (existsb (str_eqb collection_name) names).
    + intros H; injection H as <- <- <-. split; reflexivity.
    + destruct (create_collection sv collection_name 384 w2)
        as [w3 [e | u']];
        intros H; injection H as <- <- <-; split; reflexivity.
Qed.


End IndexRun.









(** ** The scenarios of the chunker *)

Example split_three_paragraphs_fit :
  split_content (lit "Para1" ++ nn ++ lit "Para2" ++ nn ++ lit "Para3") 1000
  = [lit "Para1" ++ nn ++ lit "Para2" ++ nn ++ lit "Para3"].
Proof. vm_compute. reflexivity. Qed.

Example split_three_paragraphs_of_400 :
  split_content (repeat 97%N 400 ++ nn ++ repeat 97%N 400 ++ nn
                 ++ repeat 97%N 400) 1000
  = [repeat 97%N 400 ++ nn ++ repeat 97%N 400; repeat 97%N 400].
Proof. vm_compute. reflexivity. Qed.

Example split_empty_text : split_content [] 1000 = [[]].
Proof. reflexivity. Qed.

Example split_three_line_feeds : split_nn [10; 10; 10]%N = [[]; [10%N]].
Proof. reflexivity. Qed.

Example run_prints_one_chunk :
  last (trace_of (index_markdown_files
                    (Stub.services Stub.first_chunk_fails) tt))
       (EvPrint [])
  = EvPrint (final_report 1).
Proof. vm_compute. reflexivity. Qed.

(** * Further properties *)

(** ** The chunker: shape of the chunks *)

Section ChunkShape.

Lemma dropwhile_idem {A} (f : A -> bool) (s : list A) :
  dropwhile f (dropwhile f s) = dropwhile f s.
Proof.
  induction s as [|c s IH]; [reflexivity|].
  simpl. destruct (f c) eqn:E; [exact IH|].
  simpl. rewrite E. reflexivity.
Qed.

Lemma rstrip_cons_nonspace (c : N) (s : str) :
  isspace c = false -> rstrip (c :: s) = c :: rstrip s.
Proof.
  intros Hc. unfold rstrip. simpl rev. rewrite dropwhile_app.
  destruct (forallb isspace (rev s)) eqn:E.
  - rewrite (dropwhile_all _ _ E). simpl. rewrite Hc. reflexivity.
  - rewrite rev_app_distr. reflexivity.
Qed.

Lemma lstrip_rstrip_lstrip (s : str) :
  lstrip (rstrip (lstrip s)) = rstrip (lstrip s).
Proof.
  unfold lstrip. induction s as [|c s IH]; [reflexivity|].
  simpl. destruct (isspace c) eqn:E; [exact IH|].
  rewrite (rstrip_cons_nonspace c s E). simpl. rewrite E. reflexivity.
Qed.

Lemma rstrip_idem (s : str) : rstrip (rstrip s) = rstrip s.
Proof. unfold rstrip. rewrite rev_involutive, dropwhile_idem. reflexivity. Qed.

Lemma strip_idem (s : str) : strip (strip s) = strip s.
Proof.
  unfold strip. rewrite lstrip_rstrip_lstrip. apply rstrip_idem.
Qed.

Lemma length_concat_nonempty {A} (groups : list (list A)) :
  Forall (fun g => g <> []) groups ->
  (length groups <= length (concat groups))%nat.
Proof.
  induction 1 as [|g groups Hg _ IH]; [apply le_n|].
  simpl. rewrite length_app.
  destruct g; [congruence | simpl; lia].
Qed.

Lemma hd_concat_nonempty {A} (d : A) (gs : list (list A)) (g : list A) :
  Forall (fun x => x <> []) gs ->
  hd d (hd [] (gs ++ [g])) = hd d (concat gs ++ g).
Proof.
  intros H. destruct H as [|x gs Hx _]; [reflexivity|].
  simpl. destruct x; [congruence | reflexivity].
Qed.

(** The loop cuts only where it must. *)
Lemma split_loop_forced (max_length : Z) (paragraphs : list str) :
  forall (chunks : list str) (g : list str),
    exists (gs : list (list str)) (g' : list str),
      split_loop max_length paragraphs chunks (flat g)
      = (chunks ++ map (fun x => strip (flat x)) gs, flat g')
      /\ g ++ paragraphs = concat gs ++ g'
      /\ Forall (fun x => x <> []) gs
      /\ (g' = [] -> g = [] /\ paragraphs = [])
      /\ forced_cuts max_length (gs ++ [g']).
Proof.
  induction paragraphs as [|para rest IH]; intros chunks g.
  - exists [], g. simpl. rewrite !app_nil_r.
    refine (conj eq_refl (conj eq_refl (conj (Forall_nil _) (conj _ I)))).
    intros H; split; [exact H | reflexivity].
  - simpl split_loop.
    destruct (len (flat g) + len para <? max_length) eqn:E.
    + rewrite flat_snoc.
      destruct (IH chunks (g ++ [para])) as (gs & g' & Hl & Hc & Hf & Hn & Hg).
      exists gs, g'. rewrite Hl, <- Hc, <- app_assoc.
      refine (conj eq_refl (conj eq_refl (conj Hf (conj _ Hg)))).
      intros H; apply Hn in H; destruct H as [H _].
      destruct g; discriminate.
    + apply Z.ltb_ge in E.
      rewrite flat_truthy, <- flat_single.
      destruct g as [|p g]; simpl truthy.
      * destruct (IH chunks [para]) as (gs & g' & Hl & Hc & Hf & Hn & Hg).
        exists gs, g'. rewrite Hl.
        refine (conj eq_refl (conj Hc (conj Hf (conj _ Hg)))).
        intros H; apply Hn in H; destruct H; discriminate.
      * destruct (IH (chunks ++ [strip (flat (p :: g))]) [para])
          as (gs & g' & Hl & Hc & Hf & Hn & Hg).
        exists ((p :: g) :: gs), g'. rewrite Hl.
        refine (conj _ (conj _ (conj _ (conj _ _)))).
        -- rewrite <- app_assoc; reflexivity.
        -- change (concat ((p :: g) :: gs)) with ((p :: g) ++ concat gs).
           rewrite <- app_assoc, <- Hc; reflexivity.
        -- constructor; [discriminate | exact Hf].
        -- intros H; apply Hn in H; destruct H; discriminate.
        -- pose proof (hd_concat_nonempty [] gs g' Hf) as Hh.
           rewrite <- Hc in Hh. simpl in Hh.
           change (((p :: g) :: gs) ++ [g']) with ((p :: g) :: (gs ++ [g'])).
           destruct (gs ++ [g']) as [|y ys] eqn:Ey;
             [destruct gs; discriminate|].
           simpl in Hh. cbn [forced_cuts]. rewrite Hh.
           split; [exact E | exact Hg].
Qed.

End ChunkShape.

(** X1: every chunk comes back stripped: stripping it again changes
    nothing, so no chunk starts or ends with whitespace. *)
Theorem split_content_chunks_stripped (text : str) (max_length : Z) :
  Forall (fun chunk => strip chunk = chunk) (split_content text max_length).
Proof.
  destruct (split_content_groups max_length text) as (groups & -> & _).
  apply Forall_forall. intros chunk Hin.
  apply in_map_iff in Hin. destruct Hin as (g & <- & _).
  apply strip_idem.
Qed.

(** X2: there is at least one chunk and never more chunks than paragraphs. *)
Theorem split_content_count (text : str) (max_length : Z) :
  (1 <= length (split_content text max_length)
   <= length (split_nn text))%nat.
Proof.
  destruct (split_content_groups max_length text)
    as (groups & -> & Hc & Hne & Hf).
  rewrite length_map, <- Hc. split.
  - destruct groups; [congruence | simpl; lia].
  - apply length_concat_nonempty.
    eapply Forall_impl; [|exact Hf]. intros g [Hg _]. exact Hg.
Qed.

(** X3: a text shorter than [max_length] is never cut: it comes back as one
    chunk, the text stripped, however many paragraphs it has. *)
Theorem split_content_short_text (text : str) (max_length : Z) :
  len text < max_length -> split_content text max_length = [strip text].
Proof.
  intros H. unfold split_content. cbv zeta.
  change (@nil N) with (flat []) at 1.
  rewrite (split_loop_fits max_length (split_nn text) [] []).
  - simpl app. rewrite flat_truthy.
    destruct (split_nn text) as [|p ps] eqn:E;
      [exfalso; exact (split_nn_nonempty text E)|].
    simpl truthy. simpl app.
    rewrite strip_flat by discriminate.
    rewrite <- E, join_split_nn. reflexivity.
  - apply split_nn_nonempty.
  - rewrite join_split_nn. exact H.
Qed.

Lemma split_content_short_text_witness :
  split_content (lit " Para1" ++ nn ++ lit "Para2 ") 1000
  = [strip (lit " Para1" ++ nn ++ lit "Para2 ")].
Proof.
  apply (split_content_short_text (lit " Para1" ++ nn ++ lit "Para2 ") 1000).
  reflexivity.
Defined.

(** X4: the chunker is greedy. The chunks are the stripped joins of
    consecutive groups of paragraphs, and between two neighbouring groups
    the cut was forced: the buffer of the earlier group (its paragraphs,
    each followed by the separator) and the first paragraph of the later
    group together reach [max_length]. *)
Theorem split_content_greedy (text : str) (max_length : Z) :
  exists groups : list (list str),
    split_content text max_length = map (fun g => strip (join nn g)) groups
    /\ concat groups = split_nn text
    /\ Forall (fun g => g <> []) groups
    /\ forced_cuts max_length groups.
Proof.
  destruct (split_loop_forced max_length (split_nn text) [] [])
    as (gs & g & Hl & Hc & Hf & Hn & Hg).
  change (flat []) with (@nil N) in Hl. simpl in Hl, Hc.
  assert (Hne : g <> []).
  { intros H; apply Hn in H; destruct H as [_ H].
    exact (split_nn_nonempty text H). }
  assert (Hall : Forall (fun x => x <> []) (gs ++ [g])).
  { apply Forall_app; split; [exact Hf | constructor; auto]. }
  exists (gs ++ [g]). unfold split_content. rewrite Hl, flat_truthy.
  destruct g as [|p g]; [congruence|]. simpl truthy.
  assert (Hm : map (fun x => strip (flat x)) gs ++ [strip (flat (p :: g))]
               = map (fun x => strip (join nn x)) (gs ++ [p :: g])).
  { change [strip (flat (p :: g))]
      with (map (fun x => strip (flat x)) [p :: g]).
    rewrite <- map_app. apply map_ext_in.
    intros x Hx. apply strip_flat.
    rewrite Forall_forall in Hall. exact (Hall x Hx). }
  rewrite Hm.
  refine (conj _ (conj _ (conj Hall Hg))).
  - destruct (map _ (gs ++ [p :: g])) eqn:E; [|reflexivity].
    apply map_eq_nil in E. destruct gs; discriminate.
  - rewrite concat_app, Hc. simpl. rewrite app_nil_r. reflexivity.
Qed.

(** ** The RAG service: collection, documents and search *)

Section ServiceFacts.

Context {W : Type} (sv : Services W).

Local Opaque lit.

Lemma str_eqb_eq (a b : str) : str_eqb a b = true <-> a = b.
Proof.
  unfold str_eqb. destruct (list_eq_dec N.eq_dec a b); split;
    congruence.
Qed.

Lemma existsb_str_eqb (c : str) (names : list str) :
  existsb (str_eqb c) names = true <-> In c names.
Proof.
  rewrite existsb_exists. split.
  - intros (x & Hx & He). apply str_eqb_eq in He. subst x. exact Hx.
  - intros H. exists c. split; [exact H | apply str_eqb_eq; reflexivity].
Qed.

(** What the comprehension of [search] gives when it gives a list. *)
Lemma docs_of_hits_inr (hits : list Hit) :
  forall docs,
    docs_of_hits hits = inr docs ->
    Forall well_formed hits
    /\ map score docs = map hit_score hits
    /\ map (fun d => inr (text d)) docs
       = map (fun h => getitem (payload h) (lit "text")) hits
    /\ map (fun d => inr (source d)) docs
       = map (fun h => getitem (payload h) (lit "source")) hits.
Proof.
  induction hits as [|hit rest IH]; intros docs H.
  - injection H as <-. repeat split; constructor.
  - cbn [docs_of_hits] in H.
    destruct (getitem (payload hit) (lit "text")) as [e | t] eqn:Et;
      [discriminate|].
    destruct (getitem (payload hit) (lit "source")) as [e | s] eqn:Es;
      [discriminate|].
    destruct (docs_of_hits rest) as [e | ds]; [discriminate|].
    injection H as <-.
    destruct (IH ds eq_refl) as (Hw & Hs & Ht & Hso).
    refine (conj _ (conj _ (conj _ _))).
    + constructor; [|exact Hw]. split; eauto.
    + cbn [map score]. rewrite Hs. reflexivity.
    + cbn [map text]. rewrite Ht, Et. reflexivity.
    + cbn [map source]. rewrite Hso, Es. reflexivity.
Qed.

Lemma docs_of_hits_well_formed (hits : list Hit) :
  Forall well_formed hits -> exists docs, docs_of_hits hits = inr docs.
Proof.
  induction 1 as [|hit rest [[t Ht] [s Hs]] _ [ds IH]].
  - exists []. reflexivity.
  - cbn [docs_of_hits]. rewrite Ht, Hs, IH. eauto.
Qed.

(** [search] once the embedding and the index search have both returned. *)
Lemma search_hits (query : str) (limit : Z) (w w1 w2 : W) (v : Vector)
      (hits : list Hit) :
  encode sv query w = (w1, inr v) ->
  qsearch sv collection_name v limit w1 = (w2, inr hits) ->
  search sv query limit w
  = match docs_of_hits hits with
    | inr docs =>
        ([EvEncode query (inr v);
          EvSearch collection_name v limit (inr hits)], w2, inr docs)
    | inl e =>
        ([EvEncode query (inr v);
          EvSearch collection_name v limit (inr hits);
          EvLogError (lit "Error searching: " ++ str_of_exn e)], w2, inr [])
    end.
Proof.
  intros H1 H2.
  unfold search, embed_text, try_except, bind, call, emit, raise, ret.
  rewrite H1, H2.
  destruct (docs_of_hits hits); reflexivity.
Qed.

(** Retrieval never raises, never calls the generative model and never
    writes to the index. *)
Lemma search_quiet (query : str) (limit : Z) (w : W) :
  exists t w' docs,
    search sv query limit w = (t, w', inr docs)
    /\ existsb is_chat_call t = false
    /\ existsb is_write_call t = false.
Proof.
  unfold search, embed_text, try_except, bind, call, emit, raise, ret.
  destruct (encode sv query w) as [w1 [e | v]].
  - do 3 eexists. repeat split.
  - destruct (qsearch sv collection_name v limit w1) as [w2 [e | hits]].
    + do 3 eexists. repeat split.
    + destruct (docs_of_hits hits) as [e | docs];
        do 3 eexists; repeat split.
Qed.

Lemma relevant_docs_quiet (question : str) (context : option str) (w : W) :
  exists t w' docs,
    relevant_docs sv question context w = (t, w', inr docs)
    /\ existsb is_chat_call t = false
    /\ existsb is_write_call t = false.
Proof.
  destruct context as [[|c ctx]|]; cbn [relevant_docs];
    [apply search_quiet | | apply search_quiet].
  do 3 eexists. repeat split.
Qed.

End ServiceFacts.

(** X5: [_ensure_collection] never raises. When the collection is already
    listed it makes no other call; when it is not, its next call is the
    creation of the collection with 384 dimensions, whose failure is
    swallowed too. *)
Theorem ensure_collection_swallows {W : Type} (sv : Services W) (w : W) :
  result_of (_ensure_collection sv w) = inr tt
  /\ (forall w1 names,
         get_collections sv w = (w1, inr names) ->
         In collection_name names ->
         _ensure_collection sv w = ([EvGetCollections (inr names)], w1, inr tt))
  /\ (forall w1 names w2 r,
         get_collections sv w = (w1, inr names) ->
         ~ In collection_name names ->
         create_collection sv collection_name 384 w1 = (w2, r) ->
         firstn 2 (trace_of (_ensure_collection sv w))
         = [EvGetCollections (inr names);
            EvCreateCollection collection_name 384 r]
         /\ state_of (_ensure_collection sv w) = w2).
Proof.
  unfold _ensure_collection, try_except, bind, call, emit, ret.
  destruct (get_collections sv w) as [w1 [e | names]].
  - refine (conj eq_refl (conj _ _)); intros; discriminate.
  - destruct (existsb (str_eqb collection_name) names) eqn:E.
    + refine (conj eq_refl (conj _ _)).
      * intros w1' names' H _. injection H as <- <-. reflexivity.
      * intros w1' names' w2 r H Hn. injection H as <- <-.
        apply existsb_str_eqb in E. contradiction.
    + destruct (create_collection sv collection_name 384 w1)
        as [w2 [e | u]] eqn:Ec.
      * refine (conj eq_refl (conj _ _)).
        -- intros w1' names' H Hin. injection H as <- <-.
           apply existsb_str_eqb in Hin. congruence.
        -- intros w1' names' w2' r H _ Hc. injection H as <- <-.
           rewrite Ec in Hc. injection Hc as <- <-. split; reflexivity.
      * refine (conj eq_refl (conj _ _)).
        -- intros w1' names' H Hin. injection H as <- <-.
           apply existsb_str_eqb in Hin. congruence.
        -- intros w1' names' w2' r H _ Hc. injection H as <- <-.
           rewrite Ec in Hc. injection Hc as <- <-. split; reflexivity.
Qed.

Lemma ensure_collection_swallows_witness :
  _ensure_collection
    (Scenario.services Scenario.ready Stub.healthy) tt
  = ([EvGetCollections (inr [collection_name])], tt, inr tt).
Proof.
  apply (proj1 (proj2 (ensure_collection_swallows
                         (Scenario.services Scenario.ready Stub.healthy)
                         tt)) tt [collection_name] eq_refl).
  left; reflexivity.
Defined.

(** X6: [add_document] lets failures through, unlike [search]. When the
    embedding raises, that exception is raised again and the index is
    never called; when the upsert raises, that exception is raised again. *)
Theorem add_document_propagates {W : Type} (sv : Services W)
        (text source : str) (doc_id : Z) (w : W) :
  (forall w1 e,
      encode sv text w = (w1, inl e) ->
      add_document sv text source doc_id w
      = ([EvEncode text (inl e);
          EvLogError (lit "Error embedding text: " ++ str_of_exn e);
          EvLogError (lit "Error adding document: " ++ str_of_exn e)],
         w1, inl e))
  /\ (forall w1 v w2 e,
         encode sv text w = (w1, inr v) ->
         upsert sv collection_name doc_id v text source w1 = (w2, inl e) ->
         add_document sv text source doc_id w
         = ([EvEncode text (inr v);
             EvUpsert collection_name doc_id v text source (inl e);
             EvLogError (lit "Error adding document: " ++ str_of_exn e)],
            w2, inl e)).
Proof.
  split.
  - intros w1 e H.
    unfold add_document, embed_text, try_except, bind, call, emit, raise, ret.
    rewrite H. reflexivity.
  - intros w1 v w2 e H1 H2.
    unfold add_document, embed_text, try_except, bind, call, emit, raise, ret.
    rewrite H1, H2. reflexivity.
Qed.

Lemma add_document_propagates_witness :
  result_of (add_document (Stub.services Stub.embedder_down)
               (lit "A chunk.") (lit "intro.md") 7 tt)
  = inl (ServiceError (lit "model not loaded"))
  /\ result_of (add_document (Stub.services Scenario.upsert_refused)
                  (lit "A chunk.") (lit "intro.md") 7 tt)
     = inl (ServiceError (lit "read-only index")).
Proof.
  split.
  - rewrite (proj1 (add_document_propagates (Stub.services Stub.embedder_down)
                      (lit "A chunk.") (lit "intro.md") 7 tt)
                   tt _ eq_refl).
    reflexivity.
  - rewrite (proj2 (add_document_propagates
                      (Stub.services Scenario.upsert_refused)
                      (lit "A chunk.") (lit "intro.md") 7 tt)
                   tt _ tt _ eq_refl eq_refl).
    reflexivity.
Defined.

(** X7: [add_document] returns exactly when the embedding and the upsert
    both succeed; the one upsert it then made carries the caller's id, the
    vector the embedder gave for that text, and the text and source as
    payload. *)
Theorem add_document_returns_iff {W : Type} (sv : Services W)
        (text source : str) (doc_id : Z) (w : W) :
  result_of (add_document sv text source doc_id w) = inr tt
  <-> exists w1 v w2,
        encode sv text w = (w1, inr v)
        /\ upsert sv collection_name doc_id v text source w1 = (w2, inr tt)
        /\ add_document sv text source doc_id w
           = ([EvEncode text (inr v);
               EvUpsert collection_name doc_id v text source (inr tt);
               EvLogInfo (lit "Added document: " ++ source)],
              w2, inr tt).
Proof.
  unfold add_document, embed_text, try_except, bind, call, emit, raise, ret.
  destruct (encode sv text w) as [w1 [e | v]].
  - split; [discriminate|]. intros (? & ? & ? & H & _). discriminate.
  - destruct (upsert sv collection_name doc_id v text source w1)
      as [w2 [e | []]] eqn:E.
    + split; [discriminate|].
      intros (w1' & v' & w2' & H1 & H2 & _).
      injection H1 as <- <-. rewrite E in H2. discriminate.
    + split; [|reflexivity]. intros _.
      exists w1, v, w2. repeat split. exact E.
Qed.

(** X8: [search] never raises, whatever the collaborators do, and it never
    writes to the index. *)
Theorem search_never_raises {W : Type} (sv : Services W)
        (query : str) (limit : Z) (w : W) :
  (exists docs, result_of (search sv query limit w) = inr docs)
  /\ existsb is_write_call (trace_of (search sv query limit w)) = false.
Proof.
  destruct (search_quiet sv query limit w) as (t & w' & docs & -> & _ & Hw).
  split; [exists docs; reflexivity | exact Hw].
Qed.

(** X9: one hit whose payload lacks the text or the source key spoils the
    whole search: the [KeyError] is caught and [search] returns the empty
    list, dropping the well-formed hits with it. *)
Theorem search_malformed_payload {W : Type} (sv : Services W)
        (query : str) (limit : Z) (w w1 w2 : W) (v : Vector)
        (hits : list Hit) :
  encode sv query w = (w1, inr v) ->
  qsearch sv collection_name v limit w1 = (w2, inr hits) ->
  ~ Forall well_formed hits ->
  result_of (search sv query limit w) = inr [].
Proof.
  intros H1 H2 Hbad. rewrite (search_hits sv _ _ _ _ _ _ _ H1 H2).
  destruct (docs_of_hits hits) as [e | docs] eqn:E; [reflexivity|].
  destruct (docs_of_hits_inr hits docs E) as [Hw _]. contradiction.
Qed.

Lemma search_malformed_payload_witness :
  result_of (search (Stub.services Scenario.malformed_hit)
               (lit "What is a robot?") 3 tt) = inr [].
Proof.
  refine (search_malformed_payload (Stub.services Scenario.malformed_hit)
            (lit "What is a robot?") 3 tt tt tt _ _ eq_refl eq_refl _).
  intros H. inversion H as [|h hs _ H2]. inversion H2 as [|h' hs' Hw _].
  destruct Hw as [_ [s Hs]]. vm_compute in Hs. discriminate.
Defined.

(** X10: when every hit carries both keys, [search] returns one document
    per hit, in the order of the hits, each with the text and source of its
    payload and the score of the hit. *)
Theorem search_keeps_rank {W : Type} (sv : Services W)
        (query : str) (limit : Z) (w w1 w2 : W) (v : Vector)
        (hits : list Hit) :
  encode sv query w = (w1, inr v) ->
  qsearch sv collection_name v limit w1 = (w2, inr hits) ->
  Forall well_formed hits ->
  exists docs,
    result_of (search sv query limit w) = inr docs
    /\ length docs = length hits
    /\ map score docs = map hit_score hits
    /\ map (fun d => inr (text d)) docs
       = map (fun h => getitem (payload h) (lit "text")) hits
    /\ map (fun d => inr (source d)) docs
       = map (fun h => getitem (payload h) (lit "source")) hits.
Proof.
  intros H1 H2 Hw. rewrite (search_hits sv _ _ _ _ _ _ _ H1 H2).
  destruct (docs_of_hits_well_formed hits Hw) as [docs E].
  rewrite E. exists docs.
  destruct (docs_of_hits_inr hits docs E) as (_ & Hs & Ht & Hso).
  refine (conj eq_refl (conj _ (conj Hs (conj Ht Hso)))).
  rewrite <- (length_map score docs), Hs. apply length_map.
Qed.

Lemma search_keeps_rank_witness :
  exists docs,
    result_of (search (Stub.services Scenario.two_hits)
                 (lit "What is a robot?") 3 tt) = inr docs
    /\ length docs = 2%nat
    /\ map score docs = [0.75%float; 0.5%float]
    /\ map (fun d => inr (text d)) docs
       = map (fun h => getitem (payload h) (lit "text"))
             [{| payload := [(lit "text", lit "first");
                             (lit "source", lit "a.md")];
                 hit_score := 0.75%float |};
              {| payload := [(lit "source", lit "a.md");
                             (lit "text", lit "second")];
                 hit_score := 0.5%float |}]
    /\ map (fun d => inr (source d)) docs
       = map (fun h => getitem (payload h) (lit "source"))
             [{| payload := [(lit "text", lit "first");
                             (lit "source", lit "a.md")];
                 hit_score := 0.75%float |};
              {| payload := [(lit "source", lit "a.md");
                             (lit "text", lit "second")];
                 hit_score := 0.5%float |}].
Proof.
  refine (search_keeps_rank (Stub.services Scenario.two_hits)
            (lit "What is a robot?") 3 tt tt tt _ _ eq_refl eq_refl _).
  repeat constructor; eexists; vm_compute; reflexivity.
Defined.

(** ** The RAG service: what an answer costs *)

Section AnswerShape.

Context {W : Type} (sv : Services W).

Local Opaque lit.

Lemma existsb_false_filter {A} (f : A -> bool) (t : list A) :
  existsb f t = false -> filter f t = [].
Proof.
  induction t as [|x t IH]; [reflexivity|].
  cbn [existsb filter]. intros H. apply orb_false_elim in H.
  destruct H as [Hx Ht]. rewrite Hx. exact (IH Ht).
Qed.

(** The trace of [generate_answer] is the trace of retrieval, followed by
    at most one call to the generative model and a log line. *)
Lemma generate_answer_shape (question : str) (context : option str) (w : W) :
  exists t w1 docs rest,
    relevant_docs sv question context w = (t, w1, inr docs)
    /\ trace_of (generate_answer sv question context w) = t ++ rest
    /\ existsb is_write_call rest = false
    /\ (length (filter is_chat_call rest) <= 1)%nat
    /\ (docs = [] -> rest = []).
Proof.
  destruct (relevant_docs_quiet sv question context w)
    as (t & w1 & docs & Hdocs & _ & _).
  exists t, w1, docs.
  destruct docs as [|doc docs].
  - exists []. rewrite (generate_answer_none sv _ _ _ _ _ Hdocs).
    rewrite app_nil_r.
    exact (conj Hdocs (conj eq_refl (conj eq_refl
             (conj (Nat.le_0_l 1) (fun _ => eq_refl))))).
  - destruct (ask sv (doc :: docs) question w1)
      as [w2 [e | [|content rest]]] eqn:E.
    + eexists.
      rewrite (generate_answer_model_error sv _ _ _ _ _ _ _ _ _ Hdocs E).
      unfold trace_of; cbn [fst]. rewrite <- app_assoc.
      refine (conj Hdocs (conj eq_refl (conj eq_refl (conj _ _)))).
      * apply le_n.
      * discriminate.
    + eexists.
      rewrite (generate_answer_no_choice sv _ _ _ _ _ _ _ _ Hdocs E).
      unfold trace_of; cbn [fst]. rewrite <- app_assoc.
      refine (conj Hdocs (conj eq_refl (conj eq_refl (conj _ _)))).
      * apply le_n.
      * discriminate.
    + eexists.
      rewrite (generate_answer_answered sv _ _ _ _ _ _ _ _ _ _ Hdocs E).
      unfold trace_of; cbn [fst].
      refine (conj Hdocs (conj eq_refl (conj eq_refl (conj _ _)))).
      * apply le_n.
      * discriminate.
Qed.

Lemma search_starts_with_encode (query : str) (limit : Z) (w : W) :
  exists r rest, trace_of (search sv query limit w) = EvEncode query r :: rest.
Proof.
  unfold search, embed_text, try_except, bind, call, emit, raise, ret.
  destruct (encode sv query w) as [w1 [e | v]].
  - do 2 eexists. reflexivity.
  - destruct (qsearch sv collection_name v limit w1) as [w2 [e | hits]].
    + do 2 eexists. reflexivity.
    + destruct (docs_of_hits hits); do 2 eexists; reflexivity.
Qed.

End AnswerShape.

(** X11: an empty string as context counts as no context. The answer is
    computed exactly as without one, so retrieval is not bypassed: the
    first thing the run does is embed the question. *)
Theorem generate_answer_empty_context {W : Type} (sv : Services W)
        (question : str) (w : W) :
  generate_answer sv question (Some []) w = generate_answer sv question None w
  /\ exists r rest,
       trace_of (generate_answer sv question (Some []) w)
       = EvEncode question r :: rest.
Proof.
  split; [reflexivity|].
  destruct (generate_answer_shape sv question (Some []) w)
    as (t & w1 & docs & rest & Hdocs & -> & _).
  destruct (search_starts_with_encode sv question 3 w) as (r & tl & Hs).
  cbn [relevant_docs] in Hdocs. rewrite Hdocs in Hs.
  unfold trace_of in Hs; cbn [fst] in Hs. subst t.
  exists r, (tl ++ rest). reflexivity.
Qed.

(** X12: end to end, without an explicit context. When the embedding, the
    index search and the generative model all return, the result carries
    the first choice of the model as answer, the source of every hit in
    rank order (a document that gave two hits is named twice) and the score
    of the first hit as confidence. *)
Theorem generate_answer_end_to_end {W : Type} (sv : Services W)
        (question : str) (context : option str) (w w1 w2 w3 : W)
        (v : Vector) (hit : Hit) (hits : list Hit) (docs : list Doc)
        (content : str) (rest : list str) :
  context = None \/ context = Some [] ->
  encode sv question w = (w1, inr v) ->
  qsearch sv collection_name v 3 w1 = (w2, inr (hit :: hits)) ->
  docs_of_hits (hit :: hits) = inr docs ->
  ask sv docs question w2 = (w3, inr (content :: rest)) ->
  exists res,
    generate_answer sv question context w
    = ([EvEncode question (inr v);
        EvSearch collection_name v 3 (inr (hit :: hits));
        asked docs question (inr (content :: rest))],
       w3, inr res)
    /\ answer res = content
    /\ map (fun s => inr s) (sources res)
       = map (fun h => getitem (payload h) (lit "source")) (hit :: hits)
    /\ confidence res = hit_score hit.
Proof.
  intros Hctx Henc Hsearch Hdocs Hask.
  pose proof (search_hits sv _ _ _ _ _ _ _ Henc Hsearch) as Hs.
  rewrite Hdocs in Hs.
  rewrite <- (relevant_docs_search sv question context Hctx) in Hs.
  destruct (docs_of_hits_inr _ _ Hdocs) as (_ & Hscore & _ & Hsource).
  destruct docs as [|doc docs]; [discriminate|].
  rewrite (generate_answer_answered sv _ _ _ _ _ _ _ _ _ _ Hs Hask).
  eexists. refine (conj eq_refl (conj eq_refl (conj _ _))).
  - cbn [sources]. rewrite map_map. exact Hsource.
  - cbn [confidence]. cbn [map] in Hscore. congruence.
Qed.

Lemma generate_answer_end_to_end_witness :
  exists res,
    generate_answer (Stub.services Scenario.two_hits)
                    (lit "What is a robot?") None tt
    = ([EvEncode (lit "What is a robot?") (inr [1%float; 0%float]);
        EvSearch collection_name [1%float; 0%float] 3
                 (Stub.on_search Scenario.two_hits);
        asked [{| text := lit "first"; source := lit "a.md";
                  score := 0.75%float |};
               {| text := lit "second"; source := lit "a.md";
                  score := 0.5%float |}]
              (lit "What is a robot?")
              (inr [lit "It is a robot shaped like a person."])],
       tt, inr res)
    /\ answer res = lit "It is a robot shaped like a person."
    /\ map (fun s => inr s) (sources res)
       = [inr (lit "a.md") : Outcome str; inr (lit "a.md")]
    /\ confidence res = 0.75%float.
Proof.
  exact (generate_answer_end_to_end (Stub.services Scenario.two_hits)
           (lit "What is a robot?") None tt tt tt tt _ _ _ _ _ _
           (or_introl eq_refl) eq_refl eq_refl eq_refl eq_refl).
Defined.

(** X13: one run of [generate_answer] invokes [chat.completions.create] at
    most once, whatever retrieval or that invocation did: the function has
    no loop around the call and makes no second attempt of its own. What
    the client does inside the one invocation is not part of the trace. *)
Theorem generate_answer_at_most_one_chat {W : Type} (sv : Services W)
        (question : str) (context : option str) (w : W) :
  (length (filter is_chat_call
                  (trace_of (generate_answer sv question context w)))
   <= 1)%nat.
Proof.
  destruct (generate_answer_shape sv question context w)
    as (t & w1 & docs & rest & Hdocs & -> & _ & Hone & _).
  pose proof (relevant_docs_no_chat sv question context w) as Hno.
  rewrite Hdocs in Hno. unfold trace_of in Hno; cbn [fst] in Hno.
  rewrite filter_app, (existsb_false_filter _ _ Hno). exact Hone.
Qed.

(** X14: when documents were retrieved and the generative model returns
    no choice, [generate_answer] raises [IndexError] (logged like any other
    failure); it does not fall back on the not-found answer. *)
Theorem generate_answer_no_choices {W : Type} (sv : Services W)
        (question : str) (context : option str) (w w1 w2 : W)
        (t : list Event) (doc : Doc) (docs : list Doc) :
  relevant_docs sv question context w = (t, w1, inr (doc :: docs)) ->
  ask sv (doc :: docs) question w1 = (w2, inr []) ->
  result_of (generate_answer sv question context w) = inl IndexError
  /\ last (trace_of (generate_answer sv question context w)) (EvPrint [])
     = EvLogError (lit "Error generating answer: list index out of range").
Proof.
  intros Hdocs Hask.
  rewrite (generate_answer_no_choice sv _ _ _ _ _ _ _ _ Hdocs Hask).
  split; [reflexivity|].
  unfold trace_of; cbn [fst]. apply last_last.
Qed.

Lemma generate_answer_no_choices_witness :
  result_of (generate_answer (Stub.services Scenario.no_choice)
               (lit "What is a robot?") None tt) = inl IndexError.
Proof.
  exact (proj1 (generate_answer_no_choices
                  (Stub.services Scenario.no_choice)
                  (lit "What is a robot?") None tt tt tt _ _ _
                  eq_refl eq_refl)).
Defined.

(** X15: answering never writes to the index: the trace of
    [generate_answer] holds no upsert and no creation of a collection. *)
Theorem generate_answer_never_writes {W : Type} (sv : Services W)
        (question : str) (context : option str) (w : W) :
  existsb is_write_call (trace_of (generate_answer sv question context w))
  = false.
Proof.
  destruct (generate_answer_shape sv question context w)
    as (t & w1 & docs & rest & Hdocs & -> & Hrest & _).
  destruct (relevant_docs_quiet sv question context w)
    as (t' & w1' & docs' & Hdocs' & _ & Hw).
  rewrite Hdocs in Hdocs'. injection Hdocs' as <- <- <-.
  rewrite existsb_app, Hw, Hrest. reflexivity.
Qed.

(** ** The indexing driver: ids, skipped files and early exits *)

Section DriverFacts.

Context {W : Type} (sv : Services W).

Local Opaque lit.

Lemma accepted_ids_app (t1 t2 : list Event) :
  accepted_ids (t1 ++ t2) = accepted_ids t1 ++ accepted_ids t2.
Proof. apply flat_map_app. Qed.

Lemma texts_embedded_app (t1 t2 : list Event) :
  texts_embedded (t1 ++ t2) = texts_embedded t1 ++ texts_embedded t2.
Proof. apply flat_map_app. Qed.

Lemma ids_from_app (a b : nat) :
  forall d, ids_from d (a + b) = ids_from d a ++ ids_from (d + Z.of_nat a) b.
Proof.
  induction a as [|a IH]; intros d.
  - simpl. f_equal. lia.
  - cbn [Nat.add ids_from app]. rewrite IH. do 3 f_equal. lia.
Qed.

Lemma numbered_nil (l : Locals W) : numbered [] l l.
Proof. split; [reflexivity | cbn; lia]. Qed.

Lemma numbered_app (t1 t2 : list Event) (l l1 l2 : Locals W) :
  numbered t1 l l1 -> numbered t2 l1 l2 -> numbered (t1 ++ t2) l l2.
Proof.
  intros [H1 D1] [H2 D2]. unfold numbered.
  rewrite accepted_ids_app, length_app, ids_from_app, len_app.
  split.
  - rewrite <- H1. f_equal.
    replace (doc_id l + Z.of_nat (length (accepted_ids t1))) with (doc_id l1)
      by (rewrite D1; reflexivity).
    exact H2.
  - rewrite D2, D1. lia.
Qed.

(** Events that are no accepted upsert leave the numbering alone. *)
Lemma numbered_silent (t : list Event) (l l' : Locals W) :
  accepted_ids t = [] -> doc_id l' = doc_id l -> numbered t l l'.
Proof.
  intros H D. unfold numbered. rewrite H. split; [reflexivity | cbn; lia].
Qed.

Lemma add_document_ids (text source : str) (d : Z) (w w' : W)
      (t : list Event) (r : Outcome unit) :
  add_document sv text source d w = (t, w', r) ->
  accepted_ids t = match r with inr _ => [d] | inl _ => [] end.
Proof.
  unfold add_document, embed_text, try_except, bind, call, emit, raise, ret.
  destruct (encode sv text w) as [w1 [e | v]].
  - intros H; injection H as <- <- <-. reflexivity.
  - destruct (upsert sv collection_name d v text source w1) as [w2 [e | u]];
      intros H; injection H as <- <- <-; reflexivity.
Qed.

Lemma index_chunks_numbered (source : str) (n : nat) (chunks : list str) :
  forall (i : nat) (l l' : Locals W) (t : list Event) (r : Outcome unit),
    index_chunks sv source n i chunks l = (t, l', r) -> numbered t l l'.
Proof.
  induction chunks as [|chunk rest IH]; intros i l l' t r H.
  - injection H as <- <- <-. apply numbered_nil.
  - rewrite index_chunks_cons in H.
    destruct (add_document sv chunk (chunk_source source n i) (doc_id l)
                           (world l)) as [[t1 w1] [e | u]] eqn:E;
      pose proof (add_document_ids _ _ _ _ _ _ _ E) as Hids.
    + injection H as <- <- <-.
      apply numbered_silent; [exact Hids | reflexivity].
    + destruct (index_chunks sv source n (S i) rest
                  {| world := w1; doc_id := doc_id l + 1 |})
        as [[t2 l2] r2] eqn:E2.
      injection H as <- <- <-.
      change (EvPrint ?m :: t1 ++ t2) with ((EvPrint m :: t1) ++ t2).
      apply (numbered_app _ _ l {| world := w1; doc_id := doc_id l + 1 |});
        [|exact (IH _ _ _ _ _ E2)].
      unfold numbered. cbn [accepted_ids flat_map app] in *.
      change (flat_map _ t1) with (accepted_ids t1). rewrite Hids.
      split; [reflexivity | cbn; lia].
Qed.

Lemma index_file_numbered (md_file : str) (l l' : Locals W)
      (t : list Event) (r : Outcome unit) :
  index_file sv md_file l = (t, l', r) -> numbered t l l'.
Proof.
  unfold index_file, try_except. unfold bind at 1. unfold liftW, call.
  destruct (read_file sv (full_path md_file) (world l)) as [w1 [e | content]].
  - unfold emit. intros H; injection H as <- <- <-.
    apply numbered_silent; reflexivity.
  - destruct (len (strip content) <? 50).
    + unfold ret. intros H; injection H as <- <- <-.
      apply numbered_silent; reflexivity.
    + unfold bind.
      destruct (index_chunks sv md_file (length (split_content content 1000))
                  0 (split_content content 1000)
                  {| world := w1; doc_id := doc_id l |})
        as [[t2 l2] [e | []]] eqn:E;
        pose proof (index_chunks_numbered _ _ _ _ _ _ _ _ E) as Hn;
        unfold emit; intros H; injection H as <- <- <-;
        change (?a :: t2 ++ ?b) with ([a] ++ t2 ++ b);
        apply (numbered_app _ _ l {| world := w1; doc_id := doc_id l |});
        try (apply numbered_silent; reflexivity);
        apply (numbered_app _ _ _ l2); try exact Hn;
        apply numbered_silent; reflexivity.
Qed.

Lemma index_files_numbered (md_files : list str) :
  forall (l l' : Locals W) (t : list Event) (r : Outcome unit),
    index_files sv md_files l = (t, l', r) -> numbered t l l'.
Proof.
  induction md_files as [|md_file rest IH]; intros l l' t r H.
  - injection H as <- <- <-. apply numbered_nil.
  - cbn [index_files] in H. unfold bind in H.
    destruct (index_file sv md_file l) as [[t1 l1] r1] eqn:E1.
    destruct (index_file_counts sv _ _ _ _ _ E1) as (-> & _ & _).
    destruct (index_files sv rest l1) as [[t2 l2] r2] eqn:E2.
    injection H as <- <- <-.
    exact (numbered_app _ _ _ _ _ (index_file_numbered _ _ _ _ _ E1)
                        (IH _ _ _ _ E2)).
Qed.

Lemma ensure_collection_returns (w : W) :
  result_of (_ensure_collection sv w) = inr tt
  /\ accepted_ids (trace_of (_ensure_collection sv w)) = [].
Proof.
  unfold _ensure_collection, try_except, bind, call, emit, ret.
  destruct (get_collections sv w) as [w1 [e | names]]; [split; reflexivity|].
  destruct (existsb (str_eqb collection_name) names); [split; reflexivity|].
  destruct (create_collection sv collection_name 384 w1) as [w2 [e | u]];
    split; reflexivity.
Qed.

Lemma init_ids (w : W) : accepted_ids (trace_of (init sv w)) = [].
Proof.
  unfold init, bind, call, emit.
  destruct (load_model sv embedding_model_name w) as [w1 [e | u]];
    [reflexivity|].
  destruct (new_http_client sv 30%float w1) as [wa [e | ua]]; [reflexivity|].
  destruct (new_openai_client sv wa) as [wb [e | ub]]; [reflexivity|].
  destruct (new_qdrant_client sv wb) as [wc [e | uc]]; [reflexivity|].
  destruct (ensure_collection_returns wc) as [_ Hids].
  destruct (_ensure_collection sv wc) as [[t w2] r].
  unfold trace_of in *; cbn [fst] in *. cbn [app]. exact Hids.
Qed.

End DriverFacts.

(** X16: when the docs folder is missing, [index_markdown_files] prints
    the error and returns: the service is not built and nothing is read. *)
Theorem index_run_missing_folder {W : Type} (sv : Services W) (w w1 : W) :
  path_exists sv docs_path w = (w1, false) ->
  index_markdown_files sv w
  = ([EvExists docs_path false;
      EvPrint (lit "Error: Docs folder not found at " ++ docs_path)],
     w1, inr tt).
Proof.
  intros H. unfold index_markdown_files, bind, emit.
  rewrite H. reflexivity.
Qed.

Lemma index_run_missing_folder_witness :
  index_markdown_files
    (Scenario.services Scenario.no_folder Scenario.small_library) tt
  = ([EvExists docs_path false;
      EvPrint (lit "Error: Docs folder not found at " ++ docs_path)],
     tt, inr tt).
Proof.
  exact (index_run_missing_folder
           (Scenario.services Scenario.no_folder Scenario.small_library)
           tt tt eq_refl).
Defined.

(** X17: when the folder holds no markdown file, the run says so and
    returns after building the service: no file is read, nothing is
    embedded and nothing is indexed. *)
Theorem index_run_no_files {W : Type} (sv : Services W) (w w1 w2 w3 : W)
        (t1 : list Event) :
  path_exists sv docs_path w = (w1, true) ->
  init sv w1 = (t1, w2, inr tt) ->
  rglob_md sv docs_path w2 = (w3, inr []) ->
  index_markdown_files sv w
  = ((EvExists docs_path true :: t1)
     ++ [EvRglob docs_path (inr []); EvPrint (lit "No markdown files found!")],
     w3, inr tt)
  /\ files_read (trace_of (index_markdown_files sv w)) = []
  /\ indexed_count (trace_of (index_markdown_files sv w)) = 0.
Proof.
  intros Hex Hinit Hglob.
  assert (Hrun : index_markdown_files sv w
                 = ((EvExists docs_path true :: t1)
                    ++ [EvRglob docs_path (inr []);
                        EvPrint (lit "No markdown files found!")],
                    w3, inr tt)).
  { unfold index_markdown_files.
    unfold bind at 1. rewrite Hex. cbn [negb].
    unfold bind at 1. rewrite Hinit.
    unfold bind at 1. unfold call at 1. rewrite Hglob.
    cbn [truthy negb]. unfold emit. reflexivity. }
  rewrite Hrun. destruct (init_counts sv _ _ _ _ Hinit) as [Hr Hc].
  unfold trace_of; cbn [fst].
  change (EvExists docs_path true :: t1) with ([EvExists docs_path true] ++ t1).
  rewrite !files_read_app, !indexed_count_app, Hr, Hc.
  repeat split.
Qed.

Lemma index_run_no_files_witness :
  files_read (trace_of (index_markdown_files
                          (Stub.services Stub.healthy) tt)) = []
  /\ indexed_count (trace_of (index_markdown_files
                                (Stub.services Stub.healthy) tt)) = 0.
Proof.
  exact (proj2 (index_run_no_files (Stub.services Stub.healthy)
                  tt tt tt tt _ eq_refl eq_refl eq_refl)).
Defined.

(** X18: a file whose content, stripped, has fewer than 50 characters is
    passed over in silence: it is read, and then nothing is embedded,
    indexed or printed, and [doc_id] stays as it was. *)
Theorem index_file_skips_short {W : Type} (sv : Services W)
        (md_file content : str) (l : Locals W) (w1 : W) :
  read_file sv (full_path md_file) (world l) = (w1, inr content) ->
  len (strip content) < 50 ->
  index_file sv md_file l
  = ([EvRead (full_path md_file) (inr content)],
     {| world := w1; doc_id := doc_id l |}, inr tt).
Proof.
  intros Hread Hlen.
  unfold index_file, try_except. unfold bind at 1.
  unfold liftW, call. rewrite Hread.
  apply Z.ltb_lt in Hlen. rewrite Hlen. reflexivity.
Qed.

Lemma index_file_skips_short_witness :
  index_file (Stub.services Scenario.small_library) (lit "stub.md")
             {| world := tt; doc_id := 5 |}
  = ([EvRead (full_path (lit "stub.md")) (inr (lit "  todo  "))],
     {| world := tt; doc_id := 5 |}, inr tt).
Proof.
  apply (index_file_skips_short (Stub.services Scenario.small_library)
           (lit "stub.md") (lit "  todo  ") {| world := tt; doc_id := 5 |} tt).
  - reflexivity.
  - reflexivity.
Defined.

(** X19: along the loop over the files, the ids of the chunks the index
    accepted are consecutive, starting at the [doc_id] the loop started
    with: no id is used twice for an accepted chunk and none is left out,
    whichever documents or chunks failed in between; and [doc_id] ends as
    the next free id. *)
Theorem index_files_ids_consecutive {W : Type} (sv : Services W)
        (md_files : list str) (l : Locals W) :
  accepted_ids (trace_of (index_files sv md_files l))
  = ids_from (doc_id l)
             (length (accepted_ids (trace_of (index_files sv md_files l))))
  /\ doc_id (state_of (index_files sv md_files l))
     = doc_id l + len (accepted_ids (trace_of (index_files sv md_files l))).
Proof.
  destruct (index_files sv md_files l) as [[t l'] r] eqn:E.
  exact (index_files_numbered sv _ _ _ _ _ E).
Qed.

Lemma accepted_ids_cons (ev : Event) (t : list Event) :
  accepted_ids (ev :: t)
  = match ev with
    | EvUpsert _ id _ _ _ (inr _) => [id]
    | _ => []
    end ++ accepted_ids t.
Proof. reflexivity. Qed.

Lemma accepted_ids_nil : accepted_ids [] = [].
Proof. reflexivity. Qed.

Create Rewrite HintDb ids.

#[local] Hint Rewrite accepted_ids_app accepted_ids_cons accepted_ids_nil
  @app_nil_r : ids.

Lemma index_run_numbered {W : Type} (sv : Services W) (w w' : W)
      (t : list Event) (r : Outcome unit) :
  index_markdown_files sv w = (t, w', r) ->
  accepted_ids t = ids_from 1 (length (accepted_ids t)).
Proof.
  unfold index_markdown_files.
  unfold bind at 1.
  destruct (path_exists sv docs_path w) as [w1 [|]];
    [|intros H; injection H as <- <- <-; reflexivity].
  cbn [negb]. unfold bind at 1.
  pose proof (init_ids sv w1) as Hinit.
  destruct (init sv w1) as [[t1 w2] [e | u]];
    unfold trace_of in Hinit; cbn [fst] in Hinit.
  { intros H; injection H as <- <- <-.
    autorewrite with ids. rewrite Hinit. reflexivity. }
  unfold bind at 1. unfold call at 1.
  destruct (rglob_md sv docs_path w2) as [w3 [e | md_files]].
  { intros H; injection H as <- <- <-.
    autorewrite with ids. rewrite Hinit. reflexivity. }
  destruct md_files as [|f fs].
  { cbn [truthy negb]. unfold emit.
    intros H; injection H as <- <- <-.
    autorewrite with ids. rewrite Hinit. reflexivity. }
  cbn [truthy negb]. unfold bind at 1. unfold emit at 1.
  unfold bind at 1.
  destruct (index_files sv (f :: fs) {| world := w3; doc_id := 1 |})
    as [[tf lf] rf] eqn:Ef.
  destruct (index_files_counts sv _ _ _ _ _ Ef) as (-> & _ & _).
  destruct (index_files_numbered sv _ _ _ _ _ Ef) as [Hids _].
  cbn [doc_id] in Hids.
  unfold bind at 1. unfold get_doc_id at 1. unfold emit at 1.
  intros H; injection H as <- <- <-.
  autorewrite with ids. rewrite Hinit. cbn [app].
  autorewrite with ids. exact Hids.
Qed.

(** X20: every run numbers the chunks it gets into the index 1, 2, 3, ...
    from 1 again, whatever happened before it: a second run over the same
    folder upserts under the ids of the first. *)
Theorem index_run_ids_from_one {W : Type} (sv : Services W) (w : W) :
  accepted_ids (trace_of (index_markdown_files sv w))
  = ids_from 1 (length (accepted_ids (trace_of (index_markdown_files sv w)))).
Proof.
  destruct (index_markdown_files sv w) as [[t w'] r] eqn:E.
  exact (index_run_numbered sv _ _ _ _ E).
Qed.

Lemma add_document_reliable {W : Type} (sv : Services W)
      (text source : str) (d : Z) (w : W) :
  reliable sv ->
  exists v w',
    add_document sv text source d w
    = ([EvEncode text (inr v);
        EvUpsert collection_name d v text source (inr tt);
        EvLogInfo (lit "Added document: " ++ source)],
       w', inr tt).
Proof.
  intros [Henc Hup].
  destruct (Henc text w) as (w1 & v & H1).
  destruct (Hup collection_name d v text source w1) as (w2 & H2).
  exists v, w2.
  unfold add_document, embed_text, try_except, bind, call, emit, raise, ret.
  rewrite H1, H2. reflexivity.
Qed.

Lemma index_chunks_reliable {W : Type} (sv : Services W)
      (source : str) (n : nat) (chunks : list str) :
  reliable sv ->
  forall (i : nat) (l : Locals W),
    exists t l',
      index_chunks sv source n i chunks l = (t, l', inr tt)
      /\ texts_embedded t = chunks
      /\ indexed_count t = len chunks.
Proof.
  intros Hrel. induction chunks as [|chunk rest IH]; intros i l.
  - exists [], l. repeat split.
  - rewrite index_chunks_cons.
    destruct (add_document_reliable sv chunk (chunk_source source n i)
                (doc_id l) (world l) Hrel) as (v & w' & ->).
    destruct (IH (S i) {| world := w'; doc_id := doc_id l + 1 |})
      as (t2 & l2 & -> & Ht & Hc).
    do 2 eexists. split; [reflexivity|].
    split.
    + cbn [texts_embedded flat_map app].
      change (flat_map _ t2) with (texts_embedded t2).
      rewrite Ht. reflexivity.
    + rewrite !indexed_count_cons, indexed_count_app, !indexed_count_cons,
        indexed_count_nil, Hc.
      cbn [is_indexed]. unfold len. cbn [length]. lia.
Qed.

(** X21: with collaborators that do not fail, a document of at least 50
    characters (stripped) is indexed whole: the texts sent to the embedding
    model are exactly the chunks [split_content] cuts it into, in order,
    every one of them is accepted by the index, and the loop reports the
    document as indexed. *)
Theorem index_file_indexes_every_chunk {W : Type} (sv : Services W)
        (md_file content : str) (l : Locals W) (w1 : W) :
  reliable sv ->
  read_file sv (full_path md_file) (world l) = (w1, inr content) ->
  50 <= len (strip content) ->
  texts_embedded (trace_of (index_file sv md_file l))
  = split_content content 1000
  /\ indexed_count (trace_of (index_file sv md_file l))
     = len (split_content content 1000)
  /\ last (trace_of (index_file sv md_file l)) (EvPrint [])
     = EvPrint ([10003%N] ++ lit " Indexed: " ++ md_file).
Proof.
  intros Hrel Hread Hlen.
  destruct (index_chunks_reliable sv md_file
              (length (split_content content 1000))
              (split_content content 1000) Hrel 0
              {| world := w1; doc_id := doc_id l |})
    as (t & l' & Hrun & Ht & Hc).
  assert (Hfile : index_file sv md_file l
                  = ((EvRead (full_path md_file) (inr content) :: t)
                     ++ [EvPrint ([10003%N] ++ lit " Indexed: " ++ md_file)],
                     l', inr tt)).
  { unfold index_file, try_except. unfold bind at 1.
    unfold liftW, call. rewrite Hread.
    replace (len (strip content) <? 50) with false
      by (symmetry; apply Z.ltb_ge; exact Hlen).
    unfold bind. rewrite Hrun. unfold emit. reflexivity. }
  rewrite Hfile. unfold trace_of; cbn [fst].
  refine (conj _ (conj _ _)).
  - change (EvRead ?p ?r :: t) with ([EvRead p r] ++ t).
    rewrite <- app_assoc.
    unfold texts_embedded. rewrite !flat_map_app. cbn [flat_map app].
    rewrite app_nil_r. exact Ht.
  - rewrite indexed_count_app, !indexed_count_cons, indexed_count_nil, Hc.
    cbn [is_indexed]. lia.
  - apply last_last.
Qed.

Lemma index_file_indexes_every_chunk_witness :
  texts_embedded
    (trace_of (index_file (Stub.services Scenario.small_library)
                 (lit "ch1.md") {| world := tt; doc_id := 1 |}))
  = split_content Stub.two_chunk_document 1000
  /\ indexed_count
       (trace_of (index_file (Stub.services Scenario.small_library)
                    (lit "ch1.md") {| world := tt; doc_id := 1 |}))
     = len (split_content Stub.two_chunk_document 1000)
  /\ last (trace_of (index_file (Stub.services Scenario.small_library)
                       (lit "ch1.md") {| world := tt; doc_id := 1 |}))
          (EvPrint [])
     = EvPrint ([10003%N] ++ lit " Indexed: " ++ lit "ch1.md").
Proof.
  apply (index_file_indexes_every_chunk
           (Stub.services Scenario.small_library) (lit "ch1.md")
           Stub.two_chunk_document {| world := tt; doc_id := 1 |} tt).
  - split.
    + intros text w. exists tt, [1%float; 0%float]. destruct w. reflexivity.
    + intros c id v text source w. exists tt. destruct w. reflexivity.
  - reflexivity.
  - vm_compute. discriminate.
Defined.

(** The constructor, step by step. *)
Lemma init_steps {W : Type} (sv : Services W) (w : W) :
  init sv w
  = match load_model sv embedding_model_name w with
    | (w1, inl e) =>
        ([EvPrint
            (lit "Loading embedding model... (first time takes a minute)");
          EvLoadModel embedding_model_name (inl e)], w1, inl e)
    | (w1, inr u1) =>
        match new_http_client sv 30%float w1 with
        | (w2, inl e) =>
            ([EvPrint
                (lit "Loading embedding model... (first time takes a minute)");
              EvLoadModel embedding_model_name (inr u1);
              EvPrint (lit "Embedding model loaded!");
              EvHttpClient 30%float (inl e)], w2, inl e)
        | (w2, inr u2) =>
            match new_openai_client sv w2 with
            | (w3, inl e) =>
                ([EvPrint
                    (lit "Loading embedding model... (first time takes a minute)");
                  EvLoadModel embedding_model_name (inr u1);
                  EvPrint (lit "Embedding model loaded!");
                  EvHttpClient 30%float (inr u2);
                  EvOpenAIClient (inl e)], w3, inl e)
            | (w3, inr u3) =>
                match new_qdrant_client sv w3 with
                | (w4, inl e) =>
                    ([EvPrint
                        (lit "Loading embedding model... (first time takes a minute)");
                      EvLoadModel embedding_model_name (inr u1);
                      EvPrint (lit "Embedding model loaded!");
                      EvHttpClient 30%float (inr u2);
                      EvOpenAIClient (inr u3);
                      EvQdrantClient (inl e)], w4, inl e)
                | (w4, inr u4) =>
                    let '(t, w5, r) := _ensure_collection sv w4 in
                    ([EvPrint
                        (lit "Loading embedding model... (first time takes a minute)");
                      EvLoadModel embedding_model_name (inr u1);
                      EvPrint (lit "Embedding model loaded!");
                      EvHttpClient 30%float (inr u2);
                      EvOpenAIClient (inr u3);
                      EvQdrantClient (inr u4)] ++ t, w5, r)
                end
            end
        end
    end.
Proof.
  unfold init, bind, call, emit.
  destruct (load_model sv embedding_model_name w) as [w1 [e | u1]];
    [reflexivity|].
  destruct (new_http_client sv 30%float w1) as [w2 [e | u2]]; [reflexivity|].
  destruct (new_openai_client sv w2) as [w3 [e | u3]]; [reflexivity|].
  destruct (new_qdrant_client sv w3) as [w4 [e | u4]]; [reflexivity|].
  destruct (_ensure_collection sv w4) as [[t w5] r]. reflexivity.
Qed.

(** X22: building the service fails exactly when the loading of the
    embedding model or the construction of one of the three clients (HTTP,
    OpenAI, Qdrant) raises; the exception then leaves the constructor
    before the index is contacted. Once the four have returned the
    constructor returns, whatever the index answers. *)
Theorem init_fails_only_in_constructors {W : Type} (sv : Services W) (w : W) :
  (result_of (init sv w) = inr tt
   <-> exists w1 w2 w3 w4,
         load_model sv embedding_model_name w = (w1, inr tt)
         /\ new_http_client sv 30%float w1 = (w2, inr tt)
         /\ new_openai_client sv w2 = (w3, inr tt)
         /\ new_qdrant_client sv w3 = (w4, inr tt))
  /\ (forall e,
         result_of (init sv w) = inl e ->
         existsb is_index_call (trace_of (init sv w)) = false)
  /\ (forall w1 e,
         load_model sv embedding_model_name w = (w1, inl e) ->
         init sv w
         = ([EvPrint
               (lit "Loading embedding model... (first time takes a minute)");
             EvLoadModel embedding_model_name (inl e)],
            w1, inl e))
  /\ (forall w1 w2 w3 w4 e,
         load_model sv embedding_model_name w = (w1, inr tt) ->
         new_http_client sv 30%float w1 = (w2, inr tt) ->
         new_openai_client sv w2 = (w3, inr tt) ->
         new_qdrant_client sv w3 = (w4, inl e) ->
         init sv w
         = ([EvPrint
               (lit "Loading embedding model... (first time takes a minute)");
             EvLoadModel embedding_model_name (inr tt);
             EvPrint (lit "Embedding model loaded!");
             EvHttpClient 30%float (inr tt);
             EvOpenAIClient (inr tt);
             EvQdrantClient (inl e)],
            w4, inl e)).
Proof.
  rewrite init_steps.
  refine (conj _ (conj _ (conj _ _))).
  - destruct (load_model sv embedding_model_name w) as [w1 [e | []]].
    { split; [discriminate|]. intros (? & ? & ? & ? & H & _). discriminate. }
    destruct (new_http_client sv 30%float w1) as [w2 [e | []]] eqn:E2.
    { split; [discriminate|].
      intros (w1' & ? & ? & ? & H1 & H2 & _).
      injection H1 as <-. rewrite E2 in H2. discriminate. }
    destruct (new_openai_client sv w2) as [w3 [e | []]] eqn:E3.
    { split; [discriminate|].
      intros (w1' & w2' & ? & ? & H1 & H2 & H3 & _).
      injection H1 as <-. rewrite E2 in H2. injection H2 as <-.
      rewrite E3 in H3. discriminate. }
    destruct (new_qdrant_client sv w3) as [w4 [e | []]] eqn:E4.
    { split; [discriminate|].
      intros (w1' & w2' & w3' & ? & H1 & H2 & H3 & H4).
      injection H1 as <-. rewrite E2 in H2. injection H2 as <-.
      rewrite E3 in H3. injection H3 as <-.
      rewrite E4 in H4. discriminate. }
    destruct (ensure_collection_returns sv w4) as [Hr _].
    destruct (_ensure_collection sv w4) as [[t w5] r].
    unfold result_of in *; cbn [snd] in *.
    split; [|intros _; exact Hr].
    intros _. exists w1, w2, w3, w4.
    exact (conj eq_refl (conj E2 (conj E3 E4))).
  - intros e.
    destruct (load_model sv embedding_model_name w) as [w1 [e1 | u1]];
      [reflexivity|].
    destruct (new_http_client sv 30%float w1) as [w2 [e2 | u2]];
      [reflexivity|].
    destruct (new_openai_client sv w2) as [w3 [e3 | u3]]; [reflexivity|].
    destruct (new_qdrant_client sv w3) as [w4 [e4 | u4]]; [reflexivity|].
    destruct (ensure_collection_returns sv w4) as [Hr _].
    destruct (_ensure_collection sv w4) as [[t w5] r].
    unfold result_of in *; cbn [snd] in *. subst r. discriminate.
  - intros w1 e H. rewrite H. reflexivity.
  - intros w1 w2 w3 w4 e H1 H2 H3 H4. rewrite H1, H2, H3, H4. reflexivity.
Qed.

Lemma init_fails_only_in_constructors_witness :
  result_of (init (Scenario.services Scenario.model_missing Stub.healthy) tt)
  = inl (ServiceError (lit "cannot download model"))
  /\ result_of (init (Scenario.services Scenario.bad_qdrant_url
                                        Stub.healthy) tt)
     = inl (ServiceError (lit "invalid url"))
  /\ result_of (init (Scenario.services Scenario.index_unreachable
                                        Stub.healthy) tt)
     = inr tt.
Proof.
  refine (conj _ (conj _ _)).
  - rewrite (proj1 (proj2 (proj2 (init_fails_only_in_constructors
                      (Scenario.services Scenario.model_missing Stub.healthy)
                      tt))) tt _ eq_refl).
    reflexivity.
  - rewrite (proj2 (proj2 (proj2 (init_fails_only_in_constructors
                      (Scenario.services Scenario.bad_qdrant_url Stub.healthy)
                      tt))) tt tt tt tt _ eq_refl eq_refl eq_refl eq_refl).
    reflexivity.
  - apply (proj1 (init_fails_only_in_constructors
                    (Scenario.services Scenario.index_unreachable
                                       Stub.healthy) tt)).
    exists tt, tt, tt, tt. repeat split.
Defined.

(** X23: the driver has no handler around the construction of the
    service: when that raises, the run raises the same exception before
    any file is looked for or read. *)
Theorem index_run_aborts_without_service {W : Type} (sv : Services W)
        (w w1 w2 : W) (t1 : list Event) (e : Exn) :
  path_exists sv docs_path w = (w1, true) ->
  init sv w1 = (t1, w2, inl e) ->
  index_markdown_files sv w = (EvExists docs_path true :: t1, w2, inl e)
  /\ files_read (EvExists docs_path true :: t1) = []
  /\ indexed_count (EvExists docs_path true :: t1) = 0.
Proof.
  intros Hex Hinit.
  destruct (init_counts sv _ _ _ _ Hinit) as [Hr Hc].
  refine (conj _ (conj _ _)).
  - unfold index_markdown_files.
    unfold bind at 1. rewrite Hex. cbn [negb].
    unfold bind at 1. rewrite Hinit. reflexivity.
  - rewrite files_read_cons, Hr. reflexivity.
  - rewrite indexed_count_cons, Hc. reflexivity.
Qed.

Lemma index_run_aborts_without_service_witness :
  result_of (index_markdown_files
               (Scenario.services Scenario.model_missing
                                  Scenario.small_library) tt)
  = inl (ServiceError (lit "cannot download model")).
Proof.
  rewrite (proj1 (index_run_aborts_without_service
                    (Scenario.services Scenario.model_missing
                                       Scenario.small_library)
                    tt tt tt _ _ eq_refl eq_refl)).
  reflexivity.
Defined.

(** ** The endpoints *)

Section EndpointFacts.

Context {W : Type} (sv : Services W).

Local Opaque lit.

(** The body of [chat] past the check of the message. *)
Lemma chat_body (request : Router.ChatRequest) (a : Router.App W) :
  truthy (strip (Router.message request)) = true ->
  Router.chat sv request a
  = match Router.get_rag_service sv a with
    | (t0, a1, inl e) =>
        (t0 ++ [EvLogError (lit "Chat error: " ++ str_of_exn e)], a1,
         inr (inl Router.processing_error))
    | (t0, a1, inr _) =>
        match generate_answer sv (Router.message request)
                              (Router.context request) (Router.app_world a1)
        with
        | (t, w', inl e) =>
            ((t0 ++ t) ++ [EvLogError (lit "Chat error: " ++ str_of_exn e)],
             {| Router.app_world := w';
                Router.rag_service := Router.rag_service a1 |},
             inr (inl Router.processing_error))
        | (t, w', inr res) =>
            (t0 ++ t,
             {| Router.app_world := w';
                Router.rag_service := Router.rag_service a1 |},
             inr (inr {| Router.answer := answer res;
                         Router.sources := sources res;
                         Router.confidence := confidence res |}))
        end
    end.
Proof.
  intros Hmsg. unfold Router.chat, try_except. rewrite Hmsg. cbn [negb].
  unfold bind at 1.
  destruct (Router.get_rag_service sv a) as [[t0 a1] [e | u]].
  - unfold bind, emit, ret. rewrite app_nil_r. reflexivity.
  - unfold bind at 1. unfold Router.liftA.
    destruct (generate_answer sv (Router.message request)
                (Router.context request) (Router.app_world a1))
      as [[t w'] [e | res]].
    + unfold bind, emit, ret. rewrite app_nil_r. reflexivity.
    + unfold ret. rewrite !app_nil_r. reflexivity.
Qed.

End EndpointFacts.

Lemma chat_refuses {W : Type} (sv : Services W)
      (request : Router.ChatRequest) (a : Router.App W) :
  strip (Router.message request) = [] ->
  Router.chat sv request a = ([], a, inr (inl Router.empty_message_error)).
Proof.
  intros H. unfold Router.chat, try_except, ret. rewrite H. reflexivity.
Qed.

(** X24: a message that is empty or holds nothing but whitespace (spaces,
    tabs, line breaks, no-break and other Unicode spaces) is refused with
    status 400 before anything else happens: the service is not built and
    no collaborator is called. *)
Theorem chat_blank_message {W : Type} (sv : Services W)
        (request : Router.ChatRequest) (a : Router.App W) :
  forallb isspace (Router.message request) = true ->
  Router.chat sv request a
  = ([], a,
     inr (inl {| Router.status_code := 400;
                 Router.detail := lit "Message cannot be empty" |})).
Proof.
  intros H. apply chat_refuses. apply strip_all_space. exact H.
Qed.

Lemma chat_blank_message_witness :
  Router.chat (Stub.services Stub.healthy)
    {| Router.message := [32; 9; 160; 10; 8195]%N; Router.context := None;
       Router.user_id := None |}
    {| Router.app_world := tt; Router.rag_service := false |}
  = ([], {| Router.app_world := tt; Router.rag_service := false |},
     inr (inl {| Router.status_code := 400;
                 Router.detail := lit "Message cannot be empty" |})).
Proof.
  apply (chat_blank_message (Stub.services Stub.healthy)). reflexivity.
Defined.

(** X25: [chat] lets no exception through other than an [HTTPException],
    and it knows two of them only: the 400 for a blank message, and one
    500 whose detail is a fixed sentence. Whatever went wrong inside, its
    text does not reach the caller. *)
Theorem chat_errors_are_generic {W : Type} (sv : Services W)
        (request : Router.ChatRequest) (a : Router.App W) :
  exists reply,
    result_of (Router.chat sv request a) = inr reply
    /\ forall http,
         reply = inl http ->
         http = {| Router.status_code := 400;
                   Router.detail := lit "Message cannot be empty" |}
         \/ http = {| Router.status_code := 500;
                      Router.detail :=
                        lit "An error occurred processing your request" |}.
Proof.
  destruct (truthy (strip (Router.message request))) eqn:Hmsg.
  - rewrite (chat_body sv request a Hmsg).
    destruct (Router.get_rag_service sv a) as [[t0 a1] [e | u]].
    + eexists. split; [reflexivity|].
      intros http H. injection H as <-. right; reflexivity.
    + destruct (generate_answer sv (Router.message request)
                  (Router.context request) (Router.app_world a1))
        as [[t w'] [e | res]].
      * eexists. split; [reflexivity|].
        intros http H. injection H as <-. right; reflexivity.
      * eexists. split; [reflexivity|]. intros http H. discriminate.
  - assert (Hs : strip (Router.message request) = [])
      by (destruct (strip (Router.message request)); [reflexivity | discriminate]).
    rewrite (chat_refuses sv request a Hs).
    eexists. split; [reflexivity|].
    intros http H. injection H as <-. left; reflexivity.
Qed.

(** X26: when the service is there and [generate_answer] returns, [chat]
    relays its three fields unchanged; the question passed on is the
    message as sent, not stripped. *)
Theorem chat_relays_result {W : Type} (sv : Services W)
        (request : Router.ChatRequest) (a a1 : Router.App W) (w' : W)
        (t0 t : list Event) (res : AnswerResult) :
  strip (Router.message request) <> [] ->
  Router.get_rag_service sv a = (t0, a1, inr tt) ->
  generate_answer sv (Router.message request) (Router.context request)
                  (Router.app_world a1) = (t, w', inr res) ->
  Router.chat sv request a
  = (t0 ++ t,
     {| Router.app_world := w'; Router.rag_service := Router.rag_service a1 |},
     inr (inr {| Router.answer := answer res;
                 Router.sources := sources res;
                 Router.confidence := confidence res |})).
Proof.
  intros Hmsg Hsvc Hgen.
  assert (Ht : truthy (strip (Router.message request)) = true)
    by (destruct (strip (Router.message request)); [congruence | reflexivity]).
  rewrite (chat_body sv request a Ht), Hsvc, Hgen. reflexivity.
Qed.

Lemma chat_relays_result_witness :
  result_of
    (Router.chat (Stub.services Stub.healthy)
       {| Router.message := lit " What is a robot? ";
          Router.context := Some (lit "Robots are machines.");
          Router.user_id := None |}
       {| Router.app_world := tt; Router.rag_service := true |})
  = inr (inr {| Router.answer := lit "It is a robot shaped like a person.";
                Router.sources := [lit "Selected Text"];
                Router.confidence := 1%float |}).
Proof.
  rewrite (chat_relays_result (Stub.services Stub.healthy)
             {| Router.message := lit " What is a robot? ";
                Router.context := Some (lit "Robots are machines.");
                Router.user_id := None |}
             {| Router.app_world := tt; Router.rag_service := true |}
             _ tt [] _ _
             (fun H => ltac:(vm_compute in H; discriminate))
             eq_refl eq_refl).
  reflexivity.
Defined.

(** X27: when [generate_answer] raises, [chat] logs the exception with its
    text and answers with the fixed 500; the state the failed call left
    behind is kept. *)
Theorem chat_failure_is_logged {W : Type} (sv : Services W)
        (request : Router.ChatRequest) (a a1 : Router.App W) (w' : W)
        (t0 t : list Event) (e : Exn) :
  strip (Router.message request) <> [] ->
  Router.get_rag_service sv a = (t0, a1, inr tt) ->
  generate_answer sv (Router.message request) (Router.context request)
                  (Router.app_world a1) = (t, w', inl e) ->
  Router.chat sv request a
  = ((t0 ++ t) ++ [EvLogError (lit "Chat error: " ++ str_of_exn e)],
     {| Router.app_world := w'; Router.rag_service := Router.rag_service a1 |},
     inr (inl Router.processing_error)).
Proof.
  intros Hmsg Hsvc Hgen.
  assert (Ht : truthy (strip (Router.message request)) = true)
    by (destruct (strip (Router.message request)); [congruence | reflexivity]).
  rewrite (chat_body sv request a Ht), Hsvc, Hgen. reflexivity.
Qed.

Lemma chat_failure_is_logged_witness :
  result_of
    (Router.chat (Stub.services Stub.model_down)
       {| Router.message := lit "What is a robot?";
          Router.context := None; Router.user_id := None |}
       {| Router.app_world := tt; Router.rag_service := true |})
  = inr (inl Router.processing_error).
Proof.
  rewrite (chat_failure_is_logged (Stub.services Stub.model_down)
             {| Router.message := lit "What is a robot?";
                Router.context := None; Router.user_id := None |}
             {| Router.app_world := tt; Router.rag_service := true |}
             _ tt [] _ _
             (fun H => ltac:(vm_compute in H; discriminate))
             eq_refl eq_refl).
  reflexivity.
Defined.

(** [get_rag_service] when the global is still unset: it is the
    constructor, and the global is set exactly when the constructor
    returned. *)
Lemma get_rag_service_unset {W : Type} (sv : Services W) (a : Router.App W) :
  Router.rag_service a = false ->
  Router.get_rag_service sv a
  = match init sv (Router.app_world a) with
    | (t, w', inr _) =>
        (t, {| Router.app_world := w'; Router.rag_service := true |}, inr tt)
    | (t, w', inl e) =>
        (t, {| Router.app_world := w'; Router.rag_service := false |}, inl e)
    end.
Proof.
  intros H. unfold Router.get_rag_service. rewrite H. reflexivity.
Qed.

(** X28: the service is built on first use and once. While the global is
    unset, [get_rag_service] runs the constructor, which starts by loading
    the embedding model; when the constructor returns the global is set and
    a further call returns at once, with no call to any collaborator; when
    it raises, the exception is passed on, the global stays unset, and the
    next call runs the constructor again. Once the global is set no call
    builds anything. *)
Theorem get_rag_service_builds_once {W : Type} (sv : Services W)
        (a : Router.App W) :
  (Router.rag_service a = true ->
   Router.get_rag_service sv a = ([], a, inr tt))
  /\ (Router.rag_service a = false ->
      exists r rest,
        trace_of (Router.get_rag_service sv a)
        = EvPrint
            (lit "Loading embedding model... (first time takes a minute)")
          :: EvLoadModel embedding_model_name r :: rest)
  /\ (forall t w',
         Router.rag_service a = false ->
         init sv (Router.app_world a) = (t, w', inr tt) ->
         Router.get_rag_service sv a
         = (t, {| Router.app_world := w'; Router.rag_service := true |},
            inr tt)
         /\ Router.get_rag_service
              sv {| Router.app_world := w'; Router.rag_service := true |}
            = ([], {| Router.app_world := w'; Router.rag_service := true |},
               inr tt))
  /\ (forall t w' e,
         Router.rag_service a = false ->
         init sv (Router.app_world a) = (t, w', inl e) ->
         Router.get_rag_service sv a
         = (t, {| Router.app_world := w'; Router.rag_service := false |},
            inl e)
         /\ trace_of (Router.get_rag_service
                        sv {| Router.app_world := w';
                              Router.rag_service := false |})
            = trace_of (init sv w'))
  /\ (result_of (Router.get_rag_service sv a) = inr tt ->
      Router.get_rag_service sv (state_of (Router.get_rag_service sv a))
      = ([], state_of (Router.get_rag_service sv a), inr tt))
  /\ (forall e,
         result_of (Router.get_rag_service sv a) = inl e ->
         Router.rag_service (state_of (Router.get_rag_service sv a)) = false
         /\ Router.rag_service a = false).
Proof.
  refine (conj _ (conj _ (conj _ (conj _ _)))).
  - intros H. unfold Router.get_rag_service. rewrite H. reflexivity.
  - intros H. rewrite (get_rag_service_unset sv a H), init_steps.
    destruct (load_model sv embedding_model_name (Router.app_world a))
      as [w1 [e | u1]]; [do 2 eexists; reflexivity|].
    destruct (new_http_client sv 30%float w1) as [w2 [e | u2]];
      [do 2 eexists; reflexivity|].
    destruct (new_openai_client sv w2) as [w3 [e | u3]];
      [do 2 eexists; reflexivity|].
    destruct (new_qdrant_client sv w3) as [w4 [e | u4]];
      [do 2 eexists; reflexivity|].
    destruct (_ensure_collection sv w4) as [[t w5] [e | u5]];
      do 2 eexists; reflexivity.
  - intros t w' H Hinit.
    rewrite (get_rag_service_unset sv a H), Hinit. split; reflexivity.
  - intros t w' e H Hinit.
    rewrite (get_rag_service_unset sv a H), Hinit. split; [reflexivity|].
    rewrite get_rag_service_unset by reflexivity. cbn [Router.app_world].
    destruct (init sv w') as [[t2 w2] [e2 | u2]]; reflexivity.
  - unfold Router.get_rag_service at 1 3 4 5 6.
    destruct (Router.rag_service a) eqn:Ha.
    + split.
      * intros _. unfold state_of; cbn [fst snd].
        unfold Router.get_rag_service. rewrite Ha. reflexivity.
      * intros e H. discriminate.
    + destruct (init sv (Router.app_world a)) as [[t w'] [e | u]].
      * split; [intros H; discriminate|].
        intros e' _. split; reflexivity.
      * split; [|intros e H; discriminate].
        intros _. reflexivity.
Qed.

Lemma get_rag_service_builds_once_witness :
  (exists r rest,
      trace_of (Router.get_rag_service (Stub.services Stub.healthy)
                  {| Router.app_world := tt; Router.rag_service := false |})
      = EvPrint
          (lit "Loading embedding model... (first time takes a minute)")
        :: EvLoadModel embedding_model_name r :: rest)
  /\ Router.get_rag_service (Stub.services Stub.healthy)
       (state_of (Router.get_rag_service (Stub.services Stub.healthy)
                    {| Router.app_world := tt; Router.rag_service := false |}))
     = ([], state_of (Router.get_rag_service (Stub.services Stub.healthy)
                        {| Router.app_world := tt;
                           Router.rag_service := false |}),
        inr tt)
  /\ result_of (Router.get_rag_service
                  (Scenario.services Scenario.bad_qdrant_url Stub.healthy)
                  {| Router.app_world := tt; Router.rag_service := false |})
     = inl (ServiceError (lit "invalid url")).
Proof.
  refine (conj _ (conj _ _)).
  - exact (proj1 (proj2 (get_rag_service_builds_once
                           (Stub.services Stub.healthy)
                           {| Router.app_world := tt;
                              Router.rag_service := false |})) eq_refl).
  - apply (proj1 (proj2 (proj2 (proj2 (proj2
             (get_rag_service_builds_once (Stub.services Stub.healthy)
                {| Router.app_world := tt;
                   Router.rag_service := false |})))))).
    reflexivity.
  - rewrite (proj1 (proj1 (proj2 (proj2 (proj2
               (get_rag_service_builds_once
                  (Scenario.services Scenario.bad_qdrant_url Stub.healthy)
                  {| Router.app_world := tt;
                     Router.rag_service := false |}))))
               _ tt _ eq_refl eq_refl)).
    reflexivity.
Defined.

(** The body of [index_document]. *)
Lemma index_document_body {W : Type} (sv : Services W)
      (text source : str) (doc_id : Z) (a : Router.App W) :
  Router.index_document sv text source doc_id a
  = match Router.get_rag_service sv a with
    | (t0, a1, inl e) =>
        (t0 ++ [EvLogError (lit "Indexing error: " ++ str_of_exn e)], a1,
         inr (inl {| Router.status_code := 500;
                     Router.detail := lit "Error indexing document: "
                                      ++ str_of_exn e |}))
    | (t0, a1, inr _) =>
        match add_document sv text source doc_id (Router.app_world a1) with
        | (t, w', inl e) =>
            ((t0 ++ t) ++ [EvLogError (lit "Indexing error: " ++ str_of_exn e)],
             {| Router.app_world := w';
                Router.rag_service := Router.rag_service a1 |},
             inr (inl {| Router.status_code := 500;
                         Router.detail := lit "Error indexing document: "
                                          ++ str_of_exn e |}))
        | (t, w', inr _) =>
            (t0 ++ t,
             {| Router.app_world := w';
                Router.rag_service := Router.rag_service a1 |},
             inr (inr [(lit "status", lit "success");
                       (lit "message", lit "Indexed document: " ++ source)]))
        end
    end.
Proof.
  unfold Router.index_document, try_except. unfold bind at 1.
  destruct (Router.get_rag_service sv a) as [[t0 a1] [e | u]].
  - unfold bind, emit, ret. rewrite app_nil_r. reflexivity.
  - unfold bind at 1. unfold Router.liftA.
    destruct (add_document sv text source doc_id (Router.app_world a1))
      as [[t w'] [e | u']].
    + unfold bind, emit, ret. rewrite app_nil_r. reflexivity.
    + unfold ret. rewrite !app_nil_r. reflexivity.
Qed.

(** X29: [index_document] lets no exception through other than a 500
    [HTTPException]. It returns the success status, with the source, exactly
    when the service was there (or could be built) and [add_document]
    returned; when the construction of the service or [add_document]
    raises, it logs the exception and raises the 500, and, unlike [chat],
    it puts the text of the exception into the detail it sends back. *)
Theorem index_document_reports_cause {W : Type} (sv : Services W)
        (text source : str) (doc_id : Z) (a : Router.App W) :
  (exists reply,
      result_of (Router.index_document sv text source doc_id a) = inr reply
      /\ match reply with
         | inr items =>
             items = [(lit "status", lit "success");
                      (lit "message", lit "Indexed document: " ++ source)]
             /\ exists t0 a1 t w',
                  Router.get_rag_service sv a = (t0, a1, inr tt)
                  /\ add_document sv text source doc_id (Router.app_world a1)
                     = (t, w', inr tt)
         | inl http =>
             Router.status_code http = 500
             /\ exists e,
                  Router.detail http
                  = lit "Error indexing document: " ++ str_of_exn e
                  /\ (result_of (Router.get_rag_service sv a) = inl e
                      \/ exists a1 t0,
                           Router.get_rag_service sv a = (t0, a1, inr tt)
                           /\ result_of (add_document sv text source doc_id
                                           (Router.app_world a1)) = inl e)
         end)
  /\ (forall t0 a1 t w',
         Router.get_rag_service sv a = (t0, a1, inr tt) ->
         add_document sv text source doc_id (Router.app_world a1)
         = (t, w', inr tt) ->
         Router.index_document sv text source doc_id a
         = (t0 ++ t,
            {| Router.app_world := w';
               Router.rag_service := Router.rag_service a1 |},
            inr (inr [(lit "status", lit "success");
                      (lit "message", lit "Indexed document: " ++ source)])))
  /\ (forall t0 a1 t w' e,
         Router.get_rag_service sv a = (t0, a1, inr tt) ->
         add_document sv text source doc_id (Router.app_world a1)
         = (t, w', inl e) ->
         Router.index_document sv text source doc_id a
         = ((t0 ++ t) ++ [EvLogError (lit "Indexing error: " ++ str_of_exn e)],
            {| Router.app_world := w';
               Router.rag_service := Router.rag_service a1 |},
            inr (inl {| Router.status_code := 500;
                        Router.detail := lit "Error indexing document: "
                                         ++ str_of_exn e |})))
  /\ (forall t0 a1 e,
         Router.get_rag_service sv a = (t0, a1, inl e) ->
         Router.index_document sv text source doc_id a
         = (t0 ++ [EvLogError (lit "Indexing error: " ++ str_of_exn e)], a1,
            inr (inl {| Router.status_code := 500;
                        Router.detail := lit "Error indexing document: "
                                         ++ str_of_exn e |}))).
Proof.
  rewrite index_document_body.
  refine (conj _ (conj _ (conj _ _))).
  - destruct (Router.get_rag_service sv a) as [[t0 a1] [e | []]].
    + eexists. split; [reflexivity|].
      split; [reflexivity|]. exists e. split; [reflexivity|].
      left; reflexivity.
    + destruct (add_document sv text source doc_id (Router.app_world a1))
        as [[t w'] [e | []]] eqn:E.
      * eexists. split; [reflexivity|].
        split; [reflexivity|]. exists e. split; [reflexivity|].
        right. exists a1, t0. split; [reflexivity | rewrite E; reflexivity].
      * eexists. split; [reflexivity|]. split; [reflexivity|].
        exists t0, a1, t, w'. split; [reflexivity | exact E].
  - intros t0 a1 t w' H1 H2. rewrite H1, H2. reflexivity.
  - intros t0 a1 t w' e H1 H2. rewrite H1, H2. reflexivity.
  - intros t0 a1 e H. rewrite H. reflexivity.
Qed.

Lemma index_document_reports_cause_witness :
  result_of (Router.index_document (Stub.services Scenario.upsert_refused)
               (lit "A chunk.") (lit "intro.md") 7
               {| Router.app_world := tt; Router.rag_service := true |})
  = inr (inl {| Router.status_code := 500;
                Router.detail := lit "Error indexing document: "
                                 ++ lit "read-only index" |})
  /\ result_of (Router.index_document (Stub.services Stub.healthy)
                  (lit "A chunk.") (lit "intro.md") 7
                  {| Router.app_world := tt; Router.rag_service := true |})
     = inr (inr [(lit "status", lit "success");
                 (lit "message", lit "Indexed document: " ++ lit "intro.md")]).
Proof.
  split.
  - rewrite (proj1 (proj2 (proj2 (index_document_reports_cause
               (Stub.services Scenario.upsert_refused)
               (lit "A chunk.") (lit "intro.md") 7
               {| Router.app_world := tt; Router.rag_service := true |})))
               [] _ _ tt _ eq_refl eq_refl).
    reflexivity.
  - rewrite (proj1 (proj2 (index_document_reports_cause
               (Stub.services Stub.healthy)
               (lit "A chunk.") (lit "intro.md") 7
               {| Router.app_world := tt; Router.rag_service := true |}))
               [] _ _ tt eq_refl eq_refl).
    reflexivity.
Defined.
